(** * h3llo: the process runner, the two command-set collectors, the subnet
    sweep and the report of [WindowsForensicTool] (src/h3llo.py).

    The tool shells out to operating-system utilities.  The operating system
    is an explicit world [W] that is threaded through every call of the
    [subprocess] interface; everything above that interface is translated
    from the Python source.  Terminal rendering ([rich] progress bars and
    tables), logging, the confirmation prompts and the JSON export are
    presentation and persistence and are not part of the embedding. *)

From Stdlib Require Import List String Ascii Bool Arith NArith ZArith Lia.
From Stdlib Require Import DecimalString DecimalNat Sorted.
Import ListNotations.

Set Implicit Arguments.

(** ** Text

    A Python [str] is a sequence of Unicode code points. *)

Module Text.

Definition char := N.
Definition str := list char.

(** A source literal. *)
Definition py (s : string) : str := map N_of_ascii (list_ascii_of_string s).

(** [str.isspace] on one character: the code points CPython's
    [_PyUnicode_IsWhitespace] accepts. *)
Definition isspace (c : char) : bool :=
  (((9 <=? c) && (c <=? 13)) || ((28 <=? c) && (c <=? 32))
   || (c =? 133) || (c =? 160) || (c =? 5760)
   || ((8192 <=? c) && (c <=? 8202))
   || (c =? 8232) || (c =? 8233) || (c =? 8239) || (c =? 8287)
   || (c =? 12288))%N.

Fixpoint lstrip (s : str) : str :=
  match s with
  | [] => []
  | c :: s' => if isspace c then lstrip s' else s
  end.

Definition rstrip (s : str) : str := rev (lstrip (rev s)).

(** [s.strip()] *)
Definition strip (s : str) : str := rstrip (lstrip s).

Fixpoint str_eqb (a b : str) : bool :=
  match a, b with
  | [], [] => true
  | x :: a', y :: b' => (x =? y)%N && str_eqb a' b'
  | _, _ => false
  end.

Fixpoint startswith (s p : str) : bool :=
  match p, s with
  | [], _ => true
  | x :: p', y :: s' => (x =? y)%N && startswith s' p'
  | _ :: _, [] => false
  end.

(** [needle in hay] *)
Fixpoint contains (needle hay : str) : bool :=
  match hay with
  | [] => startswith [] needle
  | _ :: hay' => startswith hay needle || contains needle hay'
  end.

(** [str(i)] for a non-negative integer, as an f-string field prints it. *)
Definition str_of_nat (i : nat) : str :=
  py (NilEmpty.string_of_uint (Nat.to_uint i)).

(** Truth value of an [Optional[str]]: [None] and [""] are false. *)
Definition truthy (e : option str) : bool :=
  match e with
  | None => false
  | Some [] => false
  | Some (_ :: _) => true
  end.

End Text.
Import Text.

(** ** Dictionaries

    A Python [dict] with [str] keys keeps its items in insertion order;
    assigning to a key that is present replaces the value in place. *)

Module Dict.

Definition dict := list (str * str).

Fixpoint dict_get (d : dict) (k : str) : option str :=
  match d with
  | [] => None
  | (k', v) :: d' => if str_eqb k' k then Some v else dict_get d' k
  end.

(** [d[k] = v] *)
Fixpoint dict_set (d : dict) (k v : str) : dict :=
  match d with
  | [] => [(k, v)]
  | (k', v') :: d' =>
      if str_eqb k' k then (k', v) :: d' else (k', v') :: dict_set d' k v
  end.

Definition keys (d : dict) : list str := map fst d.

End Dict.
Import Dict.

(** ** The [subprocess] interface

    [Popen] launches a shell on the command and returns the child's handle,
    or raises.  [communicate] waits for the child with the source's bound of
    thirty seconds: it returns the two captured streams once the child has
    exited, raises [TimeoutExpired] when the wait expires, or raises something
    else.  A return hands back both streams as text; a run in which the
    reading of a stream breaks down, so that no text comes back for it, is
    not among the behaviours of this interface.  [running] observes whether
    a child is still alive ([poll()] is [None]); the source never calls
    it. *)

Definition pid := nat.

Inductive popen_result :=
| Started (process : pid)
| PopenRaised (description : str).

Inductive communicate_result :=
| Returned (stdout stderr : str) (returncode : Z)
| TimeoutExpired
| CommunicateRaised (description : str).

Record subprocess (W : Type) := {
  Popen : str -> W -> popen_result * W;
  communicate : pid -> W -> communicate_result * W;
  running : pid -> W -> bool
}.

(** Computations over the world. *)
Definition M (W A : Type) := W -> A * W.

Definition ret {W A} (a : A) : M W A := fun w => (a, w).

Definition bind {W A B} (m : M W A) (k : A -> M W B) : M W B :=
  fun w => let (a, w') := m w in k a w'.

Declare Scope world_scope.
Delimit Scope world_scope with world.
Notation "x <- m ;; k" := (bind m (fun x => k))
  (at level 61, m at next level, right associativity) : world_scope.
Notation "' p <- m ;; k" := (bind m (fun x => match x with p => k end))
  (at level 61, p pattern, m at next level, right associativity) : world_scope.
Open Scope world_scope.

(** A [for] loop that updates one local variable. *)
Fixpoint for_each {W A S} (body : A -> S -> M W S) (l : list A) (acc : S)
  : M W S :=
  match l with
  | [] => ret acc
  | x :: l' => acc' <- body x acc ;; for_each body l' acc'
  end.

Inductive field := Timestamp | SystemInfo | NetworkInfo | ActiveHosts.

(** [self.results] *)
Record Report := {
  timestamp : str;
  system_info : dict;
  network_info : dict;
  active_hosts : list str
}.

(** The tool object: its report, and the sequence of assignments made to
    the report's fields since it was created (a ghost record of the writes). *)
Record tool := {
  results : Report;
  writes : list field
}.

(** How the body of [run_command]'s [try] block ends: [communicate]
    returned, [TimeoutExpired] was raised, or another [Exception] was. *)
Inductive outcome :=
| Completed (stdout stderr : str) (returncode : Z)
| Expired
| Raised (description : str).

Definition result_of (ending : outcome) : str * option str :=
  match ending with
  | Completed stdout stderr _ => (strip stdout, Some stderr)
  | Expired => ([], Some (py "Command timed out"))
  | Raised e => ([], Some e)
  end.

(** A result counts as failed when its error component is true in a
    condition: the collectors store the output under [if not error]. *)
Definition failed (r : str * option str) : bool := truthy (snd r).

(** The affirmative reply marker of the sweep. *)
Definition live (r : str * option str) : bool :=
  contains (py "Reply from") (fst r).

Section Tool.

Variable W : Type.
Variable os : subprocess W.

(** [run_command]: lines 52-66.  [attempt] is the body of the [try]
    block, ending in one of three ways; [result_of] is what the function
    returns for each ending: the [return] of the body and the two handlers. *)
Definition attempt (command : str) : M W outcome :=
  started <- Popen os command ;;
  match started with
  | PopenRaised e => ret (Raised e)
  | Started process =>
      done <- communicate os process ;;
      ret match done with
          | Returned stdout stderr returncode =>
              Completed stdout stderr returncode
          | TimeoutExpired => Expired
          | CommunicateRaised e => Raised e
          end
  end.

Definition run_command (command : str) : M W (str * option str) :=
  ending <- attempt command ;; ret (result_of ending).

(** The endings of a sequence of commands run one after the other. *)
Fixpoint attempts (commands : list str) : M W (list outcome) :=
  match commands with
  | [] => ret []
  | command :: rest =>
      o <- attempt command ;; os' <- attempts rest ;; ret (o :: os')
  end.

(** The loop shared by [get_network_info] and [get_system_info]. *)
Definition collect_step (item : str * str) (info : dict) : M W dict :=
  let (key, command) := item in
  '(output, error) <- run_command command ;;
  ret (if negb (truthy error) then dict_set info key output else info).

Definition collect (commands : list (str * str)) : M W dict :=
  for_each collect_step commands [].

Definition network_commands : list (str * str) :=
  [ (py "Network Shares", py "net share");
    (py "Active Connections", py "netstat -naob");
    (py "Routing Table", py "route print");
    (py "ARP Cache", py "arp -a");
    (py "IP Configuration", py "ipconfig /all") ].

Definition system_commands : list (str * str) :=
  [ (py "Hostname", py "hostname");
    (py "System Info", py "systeminfo");
    (py "User Accounts", py "net users");
    (py "Admin Group", py "net localgroup administrators");
    (py "Running Services",
     py "wmic service list brief | findstr " ++ [34%N] ++ py "Running"
       ++ [34%N]) ].

Definition get_network_info : M W dict := collect network_commands.

Definition get_system_info : M W dict := collect system_commands.

(** [scan_network]: lines 114-131. *)
Definition host_address (subnet : str) (i : nat) : str :=
  subnet ++ py "." ++ str_of_nat i.

Definition ping_command (ip : str) : str := py "ping -n 1 -w 200 " ++ ip.

Definition scan_step (subnet : str) (i : nat) (hosts : list str)
  : M W (list str) :=
  let ip := host_address subnet i in
  let command := ping_command ip in
  '(output, _) <- run_command command ;;
  ret (if contains (py "Reply from") output then hosts ++ [ip] else hosts).

(** The commands of one sweep, in the order the loop issues them. *)
Definition sweep_commands (subnet : str) : list str :=
  map (fun i => ping_command (host_address subnet i)) (seq 1 254).

Definition scan_network (subnet : str) : M W (list str) :=
  for_each (scan_step subnet) (seq 1 254) [].

(** The ends of a command set, label by label. *)
Definition endings (commands : list (str * str)) (w : W)
  : list (str * outcome) :=
  combine (map fst commands) (fst (attempts (map snd commands) w)).

(** The ends of a sweep, host number by host number. *)
Definition probes (subnet : str) (w : W) : list (nat * outcome) :=
  combine (seq 1 254) (fst (attempts (sweep_commands subnet) w)).

(** [__init__], with the clock reading passed in. *)
Definition init (now : str) : tool :=
  {| results := {| timestamp := now; system_info := [];
                   network_info := []; active_hosts := [] |};
     writes := [] |}.

Definition set_system_info (v : dict) (t : tool) : tool :=
  {| results := {| timestamp := timestamp (results t);
                   system_info := v;
                   network_info := network_info (results t);
                   active_hosts := active_hosts (results t) |};
     writes := writes t ++ [SystemInfo] |}.

Definition set_network_info (v : dict) (t : tool) : tool :=
  {| results := {| timestamp := timestamp (results t);
                   system_info := system_info (results t);
                   network_info := v;
                   active_hosts := active_hosts (results t) |};
     writes := writes t ++ [NetworkInfo] |}.

Definition set_active_hosts (v : list str) (t : tool) : tool :=
  {| results := {| timestamp := timestamp (results t);
                   system_info := system_info (results t);
                   network_info := network_info (results t);
                   active_hosts := v |};
     writes := writes t ++ [ActiveHosts] |}.

(** The three phases of [run_scan]: lines 180-190. *)
Definition system_phase (t : tool) : M W tool :=
  v <- get_system_info ;; ret (set_system_info v t).

Definition network_phase (t : tool) : M W tool :=
  v <- get_network_info ;; ret (set_network_info v t).

Definition sweep_phase (subnet : option str) (t : tool) : M W tool :=
  match subnet with
  | Some s =>
      if truthy subnet
      then v <- scan_network s ;; ret (set_active_hosts v t)
      else ret t
  | None => ret t
  end.

Definition run_scan (subnet : option str) (t : tool) : M W tool :=
  t1 <- system_phase t ;;
  t2 <- network_phase t1 ;;
  sweep_phase subnet t2.

End Tool.

(** ** Reading a run by its endings

    [stored] is the map a collector holds after commands that ended as
    given; [answering] is the list of host numbers whose probe carried the
    reply marker. *)

Definition store (info : dict) (e : str * outcome) : dict :=
  if negb (failed (result_of (snd e)))
  then dict_set info (fst e) (fst (result_of (snd e)))
  else info.

Definition stored (ends : list (str * outcome)) : dict :=
  map (fun e => (fst e, fst (result_of (snd e))))
      (filter (fun e => negb (failed (result_of (snd e)))) ends).

Definition answering (ends : list (nat * outcome)) : list nat :=
  map fst (filter (fun e => live (result_of (snd e))) ends).

(** ** Observing the calls

    [logged os] behaves as [os] and records, in order, every command that is
    handed to [Popen]. *)

Definition logged {W} (os : subprocess W) : subprocess (W * list str) :=
  {| Popen := fun command s =>
       let (r, w') := Popen os command (fst s) in
       (r, (w', snd s ++ [command]));
     communicate := fun process s =>
       let (r, w') := communicate os process (fst s) in
       (r, (w', snd s));
     running := fun process s => running os process (fst s) |}.

(** ** A scripted operating system

    Each command has one fixed behaviour.  The world numbers the children it
    has started, remembers the command of each, and keeps the list of those
    still alive. *)

Module Fake.

Inductive behaviour :=
| Exits (stdout stderr : str) (returncode : Z)
| Hangs
| FailsToLaunch (description : str)
| Undecodable (description : str).

Record world := {
  next_pid : pid;
  started : list (pid * str);
  alive : list pid
}.

Definition boot : world := {| next_pid := 0; started := []; alive := [] |}.

Fixpoint command_of (l : list (pid * str)) (p : pid) : option str :=
  match l with
  | [] => None
  | (q, c) :: l' => if Nat.eqb q p then Some c else command_of l' p
  end.

Definition reap (p : pid) (w : world) : world :=
  {| next_pid := next_pid w;
     started := started w;
     alive := filter (fun q => negb (Nat.eqb q p)) (alive w) |}.

Definition os (script : str -> behaviour) : subprocess world :=
  {| Popen := fun command w =>
       match script command with
       | FailsToLaunch e => (PopenRaised e, w)
       | _ =>
           (Started (next_pid w),
            {| next_pid := S (next_pid w);
               started := (next_pid w, command) :: started w;
               alive := next_pid w :: alive w |})
       end;
     communicate := fun process w =>
       match command_of (started w) process with
       | None => (CommunicateRaised (py "no such child"), w)
       | Some command =>
           match script command with
           | Exits out err rc => (Returned out err rc, reap process w)
           | Hangs => (TimeoutExpired, w)
           | FailsToLaunch e => (CommunicateRaised e, w)
           | Undecodable e => (CommunicateRaised e, reap process w)
           end
       end;
     running := fun process w => existsb (Nat.eqb process) (alive w) |}.

(** Hosts 5 and 200 of 10.0.0 answer; every other command hangs. *)
Definition two_hosts (command : str) : behaviour :=
  if str_eqb command (py "ping -n 1 -w 200 10.0.0.5")
  then Exits (py "Reply from 10.0.0.5: bytes=32 time<1ms TTL=128") [] 0
  else if str_eqb command (py "ping -n 1 -w 200 10.0.0.200")
  then Exits (py "Reply from 10.0.0.200: bytes=32 time<1ms TTL=128") [] 0
  else Hangs.

(** [hostname] answers, [systeminfo] writes to standard error, [net users]
    cannot be launched, the administrators query hangs, and everything else
    prints nothing at all. *)
Definition mixed (command : str) : behaviour :=
  if str_eqb command (py "hostname")
  then Exits (py "  HOST1" ++ [13; 10]%N) [] 0
  else if str_eqb command (py "systeminfo")
  then Exits (py "partial") (py "Access denied") 1
  else if str_eqb command (py "net users")
  then FailsToLaunch (py "[WinError 5] Access is denied")
  else if str_eqb command (py "net localgroup administrators")
  then Hangs
  else Exits [] [] 0.

(** A reply on standard output together with a warning on standard error. *)
Definition noisy_reply (command : str) : behaviour :=
  if str_eqb command (py "ping -n 1 -w 200 10.0.0.5")
  then Exits (py "Reply from 10.0.0.5: bytes=32 time<1ms TTL=128")
             (py "warning") 0
  else Hangs.

(** Launching raises an exception whose description is empty. *)
Definition silent_failure (command : str) : behaviour :=
  FailsToLaunch [].

Definition all_hang (command : str) : behaviour := Hangs.

Definition all_echo (command : str) : behaviour :=
  Exits (py " ok ") [] 0.

End Fake.

(** ** Observing every call

    [traced os] behaves as [os] and records each call of the interface:
    the launch of a command and the wait on a child. *)

Inductive event :=
| Launched (command : str)
| Waited (process : pid).

Definition traced {W} (os : subprocess W) : subprocess (W * list event) :=
  {| Popen := fun command s =>
       let (r, w') := Popen os command (fst s) in
       (r, (w', snd s ++ [Launched command]));
     communicate := fun process s =>
       let (r, w') := communicate os process (fst s) in
       (r, (w', snd s ++ [Waited process]));
     running := fun process s => running os process (fst s) |}.

(** The calls of commands run strictly one after the other, from a state
    of the operating system to the state they leave: each command is
    launched once; when the launch returns a child, the very next call is
    the wait on that child, in the state the launch left, and the next
    command starts in the state the wait left; when the launch raises there
    is no wait and the next command starts in the state the launch left. *)
Inductive sequential {W} (os : subprocess W)
  : W -> list str -> list event -> W -> Prop :=
| sequential_done w : sequential os w [] [] w
| sequential_waited w command rest process w1 r w2 calls w3 :
    Popen os command w = (Started process, w1) ->
    communicate os process w1 = (r, w2) ->
    sequential os w2 rest calls w3 ->
    sequential os w (command :: rest)
      (Launched command :: Waited process :: calls) w3
| sequential_raised w command rest e w1 calls w3 :
    Popen os command w = (PopenRaised e, w1) ->
    sequential os w1 rest calls w3 ->
    sequential os w (command :: rest) (Launched command :: calls) w3.

(** ** Presentation: [create_results_table]

    The table is the list of its rows, a category and its details; the two
    column headers and the styles are rendering.  [None] stands for an
    [IndexError] leaving the function. *)

(** [s.split(sep)] for a separator of one character. *)
Fixpoint split (sep : char) (s : str) : list str :=
  match s with
  | [] => [[]]
  | c :: s' =>
      if (c =? sep)%N then [] :: split sep s'
      else match split sep s' with
           | [] => [[c]]
           | x :: xs => (c :: x) :: xs
           end
  end.

(** [sep.join(l)] *)
Fixpoint join (sep : str) (l : list str) : str :=
  match l with
  | [] => []
  | x :: l' =>
      match l' with
      | [] => x
      | _ :: _ => x ++ sep ++ join sep l'
      end
  end.

(** [value.split('\n')[0] if value else 'N/A']: line 139 and line 143. *)
Definition summary (value : str) : option str :=
  match value with
  | [] => Some (py "N/A")
  | _ :: _ => hd_error (split 10%N value)
  end.

(** One of the two loops over the items of a map: lines 138-144. *)
Fixpoint add_rows (info : dict) (table : list (str * str))
  : option (list (str * str)) :=
  match info with
  | [] => Some table
  | (key, value) :: info' =>
      match summary value with
      | None => None
      | Some s => add_rows info' (table ++ [(key, s)])
      end
  end.

(** [create_results_table]: lines 133-149. *)
Definition create_results_table (r : Report) : option (list (str * str)) :=
  match add_rows (system_info r) [] with
  | None => None
  | Some table =>
      match add_rows (network_info r) table with
      | None => None
      | Some table' =>
          Some match active_hosts r with
               | [] => table'
               | _ :: _ =>
                   table' ++ [(py "Active Hosts",
                               join (py ", ") (active_hosts r))]
               end
      end
  end.

(** * Properties *)

Unset Implicit Arguments.

(** ** Text *)

Lemma str_eqb_eq (a b : str) : str_eqb a b = true <-> a = b.
Proof.
  revert b; induction a as [|x a IH]; intros [|y b]; simpl;
    try (split; [discriminate | discriminate]); try tauto.
  rewrite andb_true_iff, N.eqb_eq, IH.
  split; [intros [-> ->]; reflexivity | intros H; inversion H; auto].
Qed.

Lemma str_eqb_refl (a : str) : str_eqb a a = true.
Proof. apply str_eqb_eq; reflexivity. Qed.

Lemma str_eqb_neq (a b : str) : str_eqb a b = false <-> a <> b.
Proof.
  rewrite <- str_eqb_eq. destruct (str_eqb a b); split; congruence.
Qed.

Lemma lstrip_split (s : str) :
  exists pre, s = pre ++ lstrip s /\ forallb isspace pre = true.
Proof.
  induction s as [|c s [pre [E A]]]; simpl.
  - exists []; split; reflexivity.
  - destruct (isspace c) eqn:Hc.
    + exists (c :: pre); simpl. rewrite Hc, A. split; [f_equal; exact E | reflexivity].
    + exists []; split; reflexivity.
Qed.

Lemma lstrip_head (s : str) c rest :
  lstrip s = c :: rest -> isspace c = false.
Proof.
  induction s as [|d s IH]; simpl; [discriminate|].
  destruct (isspace d) eqn:Hd; [exact IH|].
  intros H; inversion H; subst; exact Hd.
Qed.

Lemma forallb_rev {A} (f : A -> bool) (l : list A) :
  forallb f (rev l) = forallb f l.
Proof.
  induction l as [|x l IH]; simpl; [reflexivity|].
  rewrite forallb_app, IH; simpl. rewrite andb_true_r. apply andb_comm.
Qed.

Lemma rstrip_split (s : str) :
  exists suf, s = rstrip s ++ suf /\ forallb isspace suf = true.
Proof.
  destruct (lstrip_split (rev s)) as [pre [E A]].
  exists (rev pre). unfold rstrip. split.
  - rewrite <- rev_app_distr, <- E, rev_involutive; reflexivity.
  - rewrite forallb_rev; exact A.
Qed.

Lemma rstrip_last (s : str) body c :
  rstrip s = body ++ [c] -> isspace c = false.
Proof.
  unfold rstrip; intros H.
  apply (f_equal (@rev _)) in H.
  rewrite rev_involutive, rev_app_distr in H; simpl in H.
  exact (lstrip_head _ _ _ H).
Qed.

Lemma rstrip_head (s : str) c rest :
  rstrip s = c :: rest -> exists rest', s = c :: rest'.
Proof.
  destruct (rstrip_split s) as [suf [E _]]; intros H.
  rewrite H in E; simpl in E. eauto.
Qed.

(** What [strip] removes and what it leaves. *)
Lemma strip_spec (s : str) :
  (exists pre suf,
      s = pre ++ strip s ++ suf /\
      forallb isspace pre = true /\ forallb isspace suf = true) /\
  (forall c rest, strip s = c :: rest -> isspace c = false) /\
  (forall body c, strip s = body ++ [c] -> isspace c = false).
Proof.
  unfold strip. repeat split.
  - destruct (lstrip_split s) as [pre [E A]].
    destruct (rstrip_split (lstrip s)) as [suf [E' A']].
    exists pre, suf. repeat split; auto.
    rewrite <- E'; exact E.
  - intros c rest H. destruct (rstrip_head _ _ _ H) as [rest' H'].
    exact (lstrip_head _ _ _ H').
  - intros body c H. exact (rstrip_last _ _ _ H).
Qed.

Lemma list_ascii_of_string_inj (a b : string) :
  list_ascii_of_string a = list_ascii_of_string b -> a = b.
Proof.
  intros H. rewrite <- (string_of_list_ascii_of_string a),
    <- (string_of_list_ascii_of_string b), H. reflexivity.
Qed.

Lemma py_inj (a b : string) : py a = py b -> a = b.
Proof.
  unfold py; intros H. apply list_ascii_of_string_inj.
  revert H. generalize (list_ascii_of_string a) (list_ascii_of_string b).
  induction l as [|x l IH]; intros [|y l']; simpl; try discriminate; auto.
  intros H; inversion H as [[Hx Hl]].
  f_equal; [|apply IH; exact Hl].
  rewrite <- (ascii_N_embedding x), <- (ascii_N_embedding y), Hx; reflexivity.
Qed.

Lemma str_of_nat_inj (i j : nat) : str_of_nat i = str_of_nat j -> i = j.
Proof.
  unfold str_of_nat; intros H. apply py_inj in H.
  apply DecimalNat.Unsigned.to_uint_inj.
  assert (Some (Nat.to_uint i) = Some (Nat.to_uint j)) as E
    by (rewrite <- !NilEmpty.usu, H; reflexivity).
  inversion E; reflexivity.
Qed.

Lemma contains_nil (needle : str) :
  contains needle [] = match needle with [] => true | _ => false end.
Proof. destruct needle; reflexivity. Qed.

Lemma host_address_inj (subnet : str) (i j : nat) :
  host_address subnet i = host_address subnet j -> i = j.
Proof.
  unfold host_address; intros H.
  do 2 apply app_inv_head in H. exact (str_of_nat_inj _ _ H).
Qed.

(** ** Dictionaries *)

Lemma dict_set_fresh (d : dict) (k v : str) :
  ~ In k (keys d) -> dict_set d k v = d ++ [(k, v)].
Proof.
  induction d as [|[k' v'] d IH]; simpl; intros H; [reflexivity|].
  destruct (str_eqb k' k) eqn:E.
  - apply str_eqb_eq in E; tauto.
  - rewrite IH; tauto.
Qed.

Lemma dict_get_in (d : dict) (k v : str) :
  NoDup (keys d) -> In (k, v) d -> dict_get d k = Some v.
Proof.
  induction d as [|[k' v'] d IH]; simpl; intros N H; [tauto|].
  inversion N as [|? ? Hk N']; subst.
  destruct H as [H|H].
  - inversion H; subst. rewrite str_eqb_refl; reflexivity.
  - destruct (str_eqb k' k) eqn:E.
    + apply str_eqb_eq in E; subst. exfalso; apply Hk.
      change k with (fst (k, v)). apply in_map; exact H.
    + apply IH; assumption.
Qed.

Lemma dict_get_none (d : dict) (k : str) :
  ~ In k (keys d) -> dict_get d k = None.
Proof.
  induction d as [|[k' v'] d IH]; simpl; intros H; [reflexivity|].
  destruct (str_eqb k' k) eqn:E.
  - apply str_eqb_eq in E; tauto.
  - apply IH; tauto.
Qed.

Lemma keys_app (d d' : dict) : keys (d ++ d') = keys d ++ keys d'.
Proof. apply map_app. Qed.

Lemma keys_stored (ends : list (str * outcome)) :
  keys (stored ends) =
  map fst (filter (fun e => negb (failed (result_of (snd e)))) ends).
Proof. unfold keys, stored. rewrite map_map; reflexivity. Qed.

Lemma keys_stored_incl (ends : list (str * outcome)) (k : str) :
  In k (keys (stored ends)) -> In k (map fst ends).
Proof.
  rewrite keys_stored, !in_map_iff. intros [e [E H]].
  apply filter_In in H. exists e; tauto.
Qed.

Lemma NoDup_keys_stored (ends : list (str * outcome)) :
  NoDup (map fst ends) -> NoDup (keys (stored ends)).
Proof.
  rewrite keys_stored. induction ends as [|e ends IH]; simpl; intros N;
    [constructor|].
  inversion N as [|? ? Hk N']; subst.
  destruct (negb (failed (result_of (snd e)))); simpl; [|auto].
  constructor; [|auto].
  intros H; apply Hk. apply in_map_iff in H; destruct H as [e' [E H]].
  apply filter_In in H. apply in_map_iff; exists e'; tauto.
Qed.

Lemma fold_store (ends : list (str * outcome)) (acc : dict) :
  NoDup (map fst ends) ->
  (forall k, In k (keys acc) -> ~ In k (map fst ends)) ->
  fold_left store ends acc = acc ++ stored ends.
Proof.
  revert acc; induction ends as [|[k o] ends IH]; intros acc N D.
  - unfold stored; simpl. rewrite app_nil_r; reflexivity.
  - inversion N as [|? ? Hk N']; subst.
    cbn [fold_left]. unfold store at 2, stored; cbn [fst snd filter].
    destruct (negb (failed (result_of o))); cbn [map fst snd].
    + rewrite dict_set_fresh
        by (intros H; apply (D _ H); left; reflexivity).
      rewrite IH; [rewrite <- app_assoc; reflexivity | exact N' |].
      intros k' H. rewrite keys_app in H. apply in_app_or in H.
      destruct H as [H|[<-|[]]]; [|exact Hk].
      intros H'; apply (D _ H); right; exact H'.
    + apply IH; [exact N'|].
      intros k' H H'; apply (D _ H); right; exact H'.
Qed.

Lemma map_fst_combine {A B} (l : list A) (l' : list B) :
  List.length l = List.length l' -> map fst (combine l l') = l.
Proof.
  revert l'; induction l as [|x l IH]; intros [|y l']; simpl;
    try discriminate; auto.
  intros H; f_equal; apply IH; lia.
Qed.

Lemma map_snd_combine {A B} (l : list A) (l' : list B) :
  List.length l = List.length l' -> map snd (combine l l') = l'.
Proof.
  revert l'; induction l as [|x l IH]; intros [|y l']; simpl;
    try discriminate; auto.
  intros H; f_equal; apply IH; lia.
Qed.

(** ** The runner and the two loops, by endings *)

Ltac run := unfold bind, ret in *; simpl in *.

Section Loops.

Variable W : Type.
Variable os : subprocess W.

Lemma run_command_ending (command : str) (w : W) :
  run_command os command w =
  (result_of (fst (attempt os command w)), snd (attempt os command w)).
Proof.
  unfold run_command; run. destruct (attempt os command w); reflexivity.
Qed.

Lemma attempts_length (commands : list str) (w : W) :
  List.length (fst (attempts os commands w)) = List.length commands.
Proof.
  revert w; induction commands as [|c cs IH]; intros w; simpl; [reflexivity|].
  run. destruct (attempt os c w) as [o w1].
  specialize (IH w1). destruct (attempts os cs w1); simpl in *.
  rewrite IH; reflexivity.
Qed.

Lemma collect_step_ending (key command : str) (info : dict) (w : W) :
  collect_step os (key, command) info w =
  (store info (key, fst (attempt os command w)),
   snd (attempt os command w)).
Proof.
  unfold collect_step, store, failed; run. rewrite run_command_ending.
  destruct (attempt os command w) as [o w1]; simpl.
  destruct (result_of o); reflexivity.
Qed.

Lemma scan_step_ending (subnet : str) (i : nat) (hosts : list str) (w : W) :
  let ip := host_address subnet i in
  scan_step os subnet i hosts w =
  (if live (result_of (fst (attempt os (ping_command ip) w)))
   then hosts ++ [ip] else hosts,
   snd (attempt os (ping_command ip) w)).
Proof.
  unfold scan_step, live; run. rewrite run_command_ending.
  destruct (attempt os _ w) as [o w1]; simpl.
  destruct (result_of o); reflexivity.
Qed.

Lemma collect_loop (commands : list (str * str)) (acc : dict) (w : W) :
  for_each (collect_step os) commands acc w =
  (fold_left store
     (combine (map fst commands) (fst (attempts os (map snd commands) w)))
     acc,
   snd (attempts os (map snd commands) w)).
Proof.
  revert acc w; induction commands as [|[key command] cs IH]; intros acc w;
    [reflexivity|].
  cbn [for_each map fst snd attempts]; unfold bind.
  rewrite collect_step_ending, IH.
  destruct (attempt os command w) as [o w1]; cbn [fst snd].
  destruct (attempts os (map snd cs) w1) as [outs w2]; reflexivity.
Qed.

Lemma scan_loop (subnet : str) (l : list nat) (acc : list str) (w : W) :
  let commands := map (fun i => ping_command (host_address subnet i)) l in
  for_each (scan_step os subnet) l acc w =
  (acc ++ map (host_address subnet)
            (answering (combine l (fst (attempts os commands w)))),
   snd (attempts os commands w)).
Proof.
  revert acc w; induction l as [|i l IH]; intros acc w;
    cbn [for_each map attempts].
  - unfold ret; cbn. rewrite app_nil_r; reflexivity.
  - unfold bind. rewrite scan_step_ending. cbn zeta in IH; rewrite IH.
    destruct (attempt os (ping_command (host_address subnet i)) w)
      as [o w1]; cbn [fst snd].
    destruct (attempts os _ w1) as [outs w2]; cbn [fst snd].
    unfold ret, answering; cbn [combine filter fst snd].
    destruct (live (result_of o)); cbn [map fst];
      [rewrite <- app_assoc|]; reflexivity.
Qed.

Lemma endings_labels (commands : list (str * str)) (w : W) :
  map fst (endings os commands w) = map fst commands.
Proof.
  apply map_fst_combine. rewrite attempts_length, !length_map; reflexivity.
Qed.

Lemma probes_numbers (subnet : str) (w : W) :
  map fst (probes os subnet w) = seq 1 254.
Proof.
  apply map_fst_combine.
  unfold sweep_commands. rewrite attempts_length, length_map; reflexivity.
Qed.

Lemma collect_stored (commands : list (str * str)) (w : W) :
  NoDup (map fst commands) ->
  collect os commands w =
  (stored (endings os commands w), snd (attempts os (map snd commands) w)).
Proof.
  intros N. unfold collect. rewrite collect_loop. f_equal.
  apply (fold_store _ []); [|intros k []].
  fold (endings os commands w). rewrite endings_labels; exact N.
Qed.

Lemma scan_answering (subnet : str) (w : W) :
  scan_network os subnet w =
  (map (host_address subnet) (answering (probes os subnet w)),
   snd (attempts os (sweep_commands subnet) w)).
Proof. unfold scan_network. rewrite scan_loop. reflexivity. Qed.

End Loops.

(** ** The process runner *)

Lemma attempt_started_returned {W} (os : subprocess W) command w process w1
    stdout stderr returncode w2 :
  Popen os command w = (Started process, w1) ->
  communicate os process w1 = (Returned stdout stderr returncode, w2) ->
  attempt os command w = (Completed stdout stderr returncode, w2).
Proof. intros P C. unfold attempt; run. rewrite P, C; reflexivity. Qed.

Lemma attempt_started_expired {W} (os : subprocess W) command w process w1
    w2 :
  Popen os command w = (Started process, w1) ->
  communicate os process w1 = (TimeoutExpired, w2) ->
  attempt os command w = (Expired, w2).
Proof. intros P C. unfold attempt; run. rewrite P, C; reflexivity. Qed.

Lemma attempt_not_started {W} (os : subprocess W) command w e w1 :
  Popen os command w = (PopenRaised e, w1) ->
  attempt os command w = (Raised e, w1).
Proof. intros P. unfold attempt; run. rewrite P; reflexivity. Qed.

Lemma failed_iff_error (output error : str) :
  failed (output, Some error) = true <-> error <> [].
Proof.
  unfold failed; simpl. destruct error; split; congruence.
Qed.

(** C3.  When the child exits normally (Popen starts it and communicate
    returns its two streams), the runner returns the standard output with
    leading and trailing whitespace removed: the output equals
    [strip stdout], it sits inside the captured text between two runs of
    whitespace, and it neither begins nor ends with whitespace.  The result
    counts as failed exactly when the captured standard error is non-empty,
    whatever the return code. *)
Theorem run_command_normal_exit {W} (os : subprocess W) command w process w1
    stdout stderr returncode w2 :
  Popen os command w = (Started process, w1) ->
  communicate os process w1 = (Returned stdout stderr returncode, w2) ->
  exists output,
    run_command os command w = ((output, Some stderr), w2) /\
    output = strip stdout /\
    (exists pre suf,
        stdout = pre ++ output ++ suf /\
        forallb isspace pre = true /\ forallb isspace suf = true) /\
    (forall c rest, output = c :: rest -> isspace c = false) /\
    (forall body c, output = body ++ [c] -> isspace c = false) /\
    (failed (output, Some stderr) = true <-> stderr <> []).
Proof.
  intros P C. exists (strip stdout).
  rewrite run_command_ending,
    (attempt_started_returned os _ _ _ _ _ _ _ _ P C); simpl.
  destruct (strip_spec stdout) as [S [Hh Ht]].
  repeat split; auto; apply failed_iff_error.
Qed.

Lemma run_command_normal_exit_witness :
  exists output,
    run_command (Fake.os Fake.mixed) (py "hostname") Fake.boot =
      ((output, Some []), Fake.reap 0 (snd (Popen (Fake.os Fake.mixed)
                                             (py "hostname") Fake.boot))) /\
    output = strip (py "  HOST1" ++ [13; 10]%N) /\
    (exists pre suf,
        py "  HOST1" ++ [13; 10]%N = pre ++ output ++ suf /\
        forallb isspace pre = true /\ forallb isspace suf = true) /\
    (forall c rest, output = c :: rest -> isspace c = false) /\
    (forall body c, output = body ++ [c] -> isspace c = false) /\
    (failed (output, Some []) = true <-> @nil char <> []).
Proof.
  eapply (run_command_normal_exit (Fake.os Fake.mixed) (py "hostname")
            Fake.boot 0 _ (py "  HOST1" ++ [13; 10]%N) [] 0);
    reflexivity.
Defined.

(** ** The command-set collectors *)

Lemma stored_app (l l' : list (str * outcome)) :
  stored (l ++ l') = stored l ++ stored l'.
Proof. unfold stored. rewrite filter_app, map_app; reflexivity. Qed.

Lemma stored_all_succeeded (l : list (str * outcome)) :
  (forall e, In e l -> failed (result_of (snd e)) = false) ->
  stored l = map (fun e => (fst e, fst (result_of (snd e)))) l.
Proof.
  unfold stored. induction l as [|e l IH]; simpl; intros H; [reflexivity|].
  rewrite (H e) by (left; reflexivity); simpl.
  f_equal; apply IH; intros e' H'; apply H; right; exact H'.
Qed.

Lemma stored_one_failed (key : str) (o : outcome) :
  failed (result_of o) = true -> stored [(key, o)] = [].
Proof. unfold stored; simpl. intros ->; reflexivity. Qed.

Lemma in_stored (ends : list (str * outcome)) (key : str) (o : outcome) :
  In (key, o) ends -> failed (result_of o) = false ->
  In (key, fst (result_of o)) (stored ends).
Proof.
  intros H F. unfold stored. apply in_map_iff. exists (key, o).
  split; [reflexivity|]. apply filter_In; simpl. rewrite F; auto.
Qed.

Lemma system_labels_distinct : NoDup (map fst system_commands).
Proof.
  repeat constructor; cbv; intuition discriminate.
Qed.

Lemma network_labels_distinct : NoDup (map fst network_commands).
Proof.
  repeat constructor; cbv; intuition discriminate.
Qed.

(** C1.  A collector run over a command set (a dict: its labels are
    distinct) returns a map in which a label is present if and only if the
    run of its command ended with an empty error component, and then the
    label holds that run's output.  Hence the map's keys lie among the
    input labels; they are the input labels, in order, when every command
    succeeds; and when exactly one command fails the map has one entry
    fewer than the command set and holds every other label with its own
    output. *)
Theorem collect_present_iff_succeeded {W} (os : subprocess W)
    (commands : list (str * str)) (w : W) :
  NoDup (map fst commands) ->
  let info := fst (collect os commands w) in
  let ends := endings os commands w in
  map fst ends = map fst commands /\
  (forall key,
      In key (keys info) <->
      exists o, In (key, o) ends /\ failed (result_of o) = false) /\
  (forall key o,
      In (key, o) ends -> failed (result_of o) = false ->
      dict_get info key = Some (fst (result_of o))) /\
  (forall key, In key (keys info) -> In key (map fst commands)) /\
  ((forall e, In e ends -> failed (result_of (snd e)) = false) ->
   keys info = map fst commands) /\
  (forall before key o after,
      ends = before ++ (key, o) :: after ->
      failed (result_of o) = true ->
      (forall e, In e (before ++ after) ->
                 failed (result_of (snd e)) = false) ->
      List.length info + 1 = List.length commands /\
      info = map (fun e => (fst e, fst (result_of (snd e))))
                 (before ++ after)).
Proof.
  intros N info ends. subst info.
  rewrite (collect_stored _ os commands w N); cbn [fst]. fold ends.
  assert (map fst ends = map fst commands) as L by apply endings_labels.
  assert (NoDup (map fst ends)) as N' by (rewrite L; exact N).
  split; [exact L|]. split; [|split; [|split; [|split]]].
  - intros key. rewrite keys_stored, in_map_iff. split.
    + intros [[k o] [E H]]. simpl in E; subst k.
      apply filter_In in H; simpl in H. destruct H as [H F].
      exists o. split; [exact H|]. apply negb_true_iff; exact F.
    + intros [o [H F]]. exists (key, o). split; [reflexivity|].
      apply filter_In; simpl. rewrite F; auto.
  - intros key o H F. apply dict_get_in.
    + apply NoDup_keys_stored; exact N'.
    + apply in_stored; assumption.
  - intros key H. rewrite <- L. apply keys_stored_incl; exact H.
  - intros A. rewrite stored_all_succeeded by exact A.
    unfold keys. rewrite map_map; simpl. exact L.
  - intros before key o after E F A.
    rewrite E, stored_app.
    change ((key, o) :: after) with ([(key, o)] ++ after).
    rewrite stored_app, (stored_one_failed _ _ F); simpl.
    rewrite <- stored_app, stored_all_succeeded by exact A.
    split; [|reflexivity].
    apply (f_equal (@List.length _)) in L.
    rewrite !length_map, E in L.
    rewrite length_map, <- L, !length_app; simpl. lia.
Qed.

Lemma collect_present_iff_succeeded_witness :
  NoDup (map fst network_commands) /\
  let info := fst (collect (Fake.os Fake.all_echo) network_commands
                     Fake.boot) in
  let ends := endings (Fake.os Fake.all_echo) network_commands Fake.boot in
  map fst ends = map fst network_commands /\
  (forall key,
      In key (keys info) <->
      exists o, In (key, o) ends /\ failed (result_of o) = false) /\
  (forall key o,
      In (key, o) ends -> failed (result_of o) = false ->
      dict_get info key = Some (fst (result_of o))) /\
  (forall key, In key (keys info) -> In key (map fst network_commands)) /\
  ((forall e, In e ends -> failed (result_of (snd e)) = false) ->
   keys info = map fst network_commands) /\
  (forall before key o after,
      ends = before ++ (key, o) :: after ->
      failed (result_of o) = true ->
      (forall e, In e (before ++ after) ->
                 failed (result_of (snd e)) = false) ->
      List.length info + 1 = List.length network_commands /\
      info = map (fun e => (fst e, fst (result_of (snd e))))
                 (before ++ after)).
Proof.
  split; [exact network_labels_distinct|].
  exact (collect_present_iff_succeeded (Fake.os Fake.all_echo)
           network_commands Fake.boot network_labels_distinct).
Defined.

(** ** Recording the commands does not change a run *)

Lemma attempt_logged {W} (os : subprocess W) command w log :
  attempt (logged os) command (w, log) =
  (fst (attempt os command w),
   (snd (attempt os command w), log ++ [command])).
Proof.
  unfold attempt; run.
  destruct (Popen os command w) as [[process|e] w1]; simpl;
    [destruct (communicate os process w1) as [[] w2]|]; reflexivity.
Qed.

Lemma attempts_logged {W} (os : subprocess W) commands w log :
  attempts (logged os) commands (w, log) =
  (fst (attempts os commands w),
   (snd (attempts os commands w), log ++ commands)).
Proof.
  revert w log; induction commands as [|c cs IH]; intros w log;
    cbn [attempts].
  - unfold ret; simpl. rewrite app_nil_r; reflexivity.
  - unfold bind. rewrite attempt_logged.
    destruct (attempt os c w) as [o w1]; cbn [fst snd].
    rewrite IH. destruct (attempts os cs w1) as [outs w2]; cbn [fst snd].
    unfold ret. rewrite <- app_assoc; reflexivity.
Qed.

Lemma scan_network_logged {W} (os : subprocess W) subnet w :
  scan_network (logged os) subnet (w, []) =
  (fst (scan_network os subnet w),
   (snd (scan_network os subnet w), sweep_commands subnet)).
Proof.
  rewrite !scan_answering. unfold probes.
  rewrite attempts_logged; reflexivity.
Qed.

Lemma collect_logged {W} (os : subprocess W) commands w :
  collect (logged os) commands (w, []) =
  (fst (collect os commands w),
   (snd (collect os commands w), map snd commands)).
Proof.
  unfold collect. rewrite !collect_loop, attempts_logged; reflexivity.
Qed.

(** ** The sweep *)

Lemma in_answering (ends : list (nat * outcome)) (h : nat) :
  In h (answering ends) <->
  exists o, In (h, o) ends /\ live (result_of o) = true.
Proof.
  unfold answering. rewrite in_map_iff. split.
  - intros [[h' o] [E H]]; simpl in E; subst h'.
    apply filter_In in H; simpl in H. exists o; exact H.
  - intros [o [H L]]. exists (h, o). split; [reflexivity|].
    apply filter_In; auto.
Qed.

Lemma answering_incl (ends : list (nat * outcome)) (h : nat) :
  In h (answering ends) -> In h (map fst ends).
Proof.
  rewrite in_answering. intros [o [H _]].
  apply in_map_iff. exists (h, o); auto.
Qed.

Lemma answering_length (ends : list (nat * outcome)) :
  List.length (answering ends) <= List.length ends.
Proof.
  unfold answering. rewrite length_map.
  induction ends as [|e ends IH]; simpl; [lia|].
  destruct (live (result_of (snd e))); simpl; lia.
Qed.

Lemma in_hosts (subnet : str) (hs : list nat) (h : nat) :
  In (host_address subnet h) (map (host_address subnet) hs) <-> In h hs.
Proof.
  rewrite in_map_iff. split.
  - intros [h' [E H]]. apply host_address_inj in E; subst; exact H.
  - intros H; exists h; auto.
Qed.

Lemma seq_sorted (a n : nat) : StronglySorted lt (seq a n).
Proof.
  revert a; induction n as [|n IH]; intros a; simpl; constructor; auto.
  apply Forall_forall. intros x H. apply in_seq in H. lia.
Qed.

Lemma answering_sorted (ends : list (nat * outcome)) :
  StronglySorted lt (map fst ends) -> StronglySorted lt (answering ends).
Proof.
  unfold answering. induction ends as [|e ends IH]; simpl; intros S;
    [constructor|].
  inversion S as [|? ? S' F]; subst.
  destruct (live (result_of (snd e))); simpl; [|auto].
  constructor; [auto|].
  apply Forall_forall. intros x H. rewrite Forall_forall in F. apply F.
  apply in_map_iff in H; destruct H as [e' [E H]].
  apply filter_In in H. apply in_map_iff; exists e'; tauto.
Qed.

Lemma sorted_before (l1 l2 l3 : list nat) (i j : nat) :
  StronglySorted lt (l1 ++ i :: l2 ++ j :: l3) -> i < j.
Proof.
  induction l1 as [|x l1 IH]; simpl; intros S;
    inversion S as [|? ? S' F]; subst; [|auto].
  rewrite Forall_forall in F. apply F.
  apply in_or_app; right; left; reflexivity.
Qed.

Lemma unique_ending {K A} (ends : list (K * A)) (h : K) (o o' : A) :
  NoDup (map fst ends) -> In (h, o) ends -> In (h, o') ends -> o = o'.
Proof.
  induction ends as [|[k x] ends IH]; simpl; intros N H H'; [tauto|].
  inversion N as [|? ? Hk N']; subst.
  destruct H as [H|H], H' as [H'|H'].
  - congruence.
  - inversion H; subst. exfalso; apply Hk.
    apply in_map_iff; exists (h, o'); auto.
  - inversion H'; subst. exfalso; apply Hk.
    apply in_map_iff; exists (h, o); auto.
  - auto.
Qed.

(** C5.  Whatever the subnet prefix and whatever the operating system
    does, the list the sweep returns holds only addresses subnet.h with
    1 <= h <= 254, holds neither subnet.0 nor subnet.255, and has at most
    254 elements; nor is a ping of subnet.0 or subnet.255 ever issued. *)
Theorem sweep_never_includes_0_or_255 {W} (os : subprocess W)
    (subnet : str) (w : W) :
  let hosts := fst (scan_network os subnet w) in
  let issued := snd (snd (scan_network (logged os) subnet (w, []))) in
  ~ In (host_address subnet 0) hosts /\
  ~ In (host_address subnet 255) hosts /\
  (forall ip, In ip hosts ->
     exists h, 1 <= h <= 254 /\ ip = host_address subnet h) /\
  List.length hosts <= 254 /\
  ~ In (ping_command (host_address subnet 0)) issued /\
  ~ In (ping_command (host_address subnet 255)) issued.
Proof.
  intros hosts issued. subst hosts issued.
  rewrite scan_network_logged, scan_answering; cbn [fst snd].
  assert (forall h, In h (answering (probes os subnet w)) -> 1 <= h <= 254)
    as R.
  { intros h H. apply answering_incl in H.
    rewrite probes_numbers in H. apply in_seq in H. lia. }
  assert (forall h, In (ping_command (host_address subnet h))
                       (sweep_commands subnet) -> 1 <= h <= 254) as R'.
  { intros h H. unfold sweep_commands in H. apply in_map_iff in H.
    destruct H as [h' [E H]]. unfold ping_command in E.
    apply app_inv_head, host_address_inj in E; subst h'.
    apply in_seq in H. lia. }
  repeat split.
  - rewrite in_hosts. intros H; apply R in H; lia.
  - rewrite in_hosts. intros H; apply R in H; lia.
  - intros ip H. apply in_map_iff in H. destruct H as [h [E H]].
    exists h; split; [apply R; exact H | symmetry; exact E].
  - rewrite length_map.
    pose proof (answering_length (probes os subnet w)) as L.
    pose proof (f_equal (@List.length _) (probes_numbers _ os subnet w))
      as L'.
    rewrite length_map, length_seq in L'. lia.
  - intros H; apply R' in H; lia.
  - intros H; apply R' in H; lia.
Qed.

(** C6.  In the list the sweep returns, addresses stand in ascending order
    of host number: when subnet.i stands before subnet.j, i < j. *)
Theorem sweep_ascending {W} (os : subprocess W) (subnet : str) (w : W)
    (i j : nat) (l1 l2 l3 : list str) :
  fst (scan_network os subnet w) =
    l1 ++ host_address subnet i :: l2 ++ host_address subnet j :: l3 ->
  i < j.
Proof.
  rewrite scan_answering; cbn [fst]. intros E.
  pose proof (answering_sorted (probes os subnet w)) as S.
  rewrite probes_numbers in S. specialize (S (seq_sorted 1 254)).
  revert E S. generalize (answering (probes os subnet w)) as hs.
  intros hs E.
  apply map_eq_app in E. destruct E as [h1 [t1 [-> [_ E]]]].
  apply map_eq_cons in E. destruct E as [i' [t2 [-> [Ei E]]]].
  apply map_eq_app in E. destruct E as [h2 [t3 [-> [_ E]]]].
  apply map_eq_cons in E. destruct E as [j' [h3 [-> [Ej _]]]].
  apply host_address_inj in Ei, Ej; subst i' j'.
  apply sorted_before.
Qed.

Lemma sweep_ascending_witness :
  fst (scan_network (Fake.os Fake.two_hosts) (py "10.0.0") Fake.boot) =
    [] ++ host_address (py "10.0.0") 5
       :: [] ++ host_address (py "10.0.0") 200 :: [] /\
  5 < 200.
Proof.
  assert (fst (scan_network (Fake.os Fake.two_hosts) (py "10.0.0")
                 Fake.boot) =
          [] ++ host_address (py "10.0.0") 5
             :: [] ++ host_address (py "10.0.0") 200 :: []) as E
    by (vm_compute; reflexivity).
  split; [exact E|].
  exact (sweep_ascending (Fake.os Fake.two_hosts) (py "10.0.0") Fake.boot
           5 200 [] [] [] E).
Defined.

Lemma dead_end_not_live (o : outcome) :
  o = Expired \/ (exists e, o = Raised e) ->
  fst (result_of o) = [] /\ live (result_of o) = false.
Proof. intros [->|[e ->]]; split; reflexivity. Qed.

(** C2, as stated, fails: a probe that exits with a reply on standard
    output and a warning on standard error is a failed probe, and its
    address is listed all the same. *)
Lemma sweep_lists_failed_probe :
  ~ (forall h o,
       In (h, o) (probes (Fake.os Fake.noisy_reply) (py "10.0.0")
                    Fake.boot) ->
       failed (result_of o) = true ->
       ~ In (host_address (py "10.0.0") h)
            (fst (scan_network (Fake.os Fake.noisy_reply) (py "10.0.0")
                    Fake.boot))).
Proof.
  intros H.
  apply (H 5 (Completed
                (py "Reply from 10.0.0.5: bytes=32 time<1ms TTL=128")
                (py "warning") 0)).
  - apply (nth_error_In _ 4). vm_compute; reflexivity.
  - reflexivity.
  - vm_compute. left; reflexivity.
Qed.

(** C2, amended.  For every subnet prefix and every behaviour of the
    operating system, the sweep issues exactly the pings of subnet.h for
    h = 1..254, in that order; subnet.h is in the returned list if and only
    if the output of its probe contains "Reply from"; a probe that timed
    out or raised contributes no host.  (A probe that exits with text on
    standard error is classified by its output like any other.)  The sweep
    returns a list in every case: no probe's error reaches the caller. *)
Theorem sweep_probes_and_lists {W} (os : subprocess W) (subnet : str)
    (w : W) :
  let hosts := fst (scan_network os subnet w) in
  let ends := probes os subnet w in
  snd (snd (scan_network (logged os) subnet (w, []))) =
    map (fun h => ping_command (host_address subnet h)) (seq 1 254) /\
  fst (scan_network (logged os) subnet (w, [])) = hosts /\
  map fst ends = seq 1 254 /\
  (forall h,
      In (host_address subnet h) hosts <->
      exists o, In (h, o) ends /\
                contains (py "Reply from") (fst (result_of o)) = true) /\
  (forall h o,
      In (h, o) ends ->
      o = Expired \/ (exists e, o = Raised e) ->
      ~ In (host_address subnet h) hosts).
Proof.
  intros hosts ends. subst hosts ends.
  rewrite scan_network_logged, scan_answering; cbn [fst snd].
  split; [reflexivity|]. split; [reflexivity|].
  split; [apply probes_numbers|]. split.
  - intros h. rewrite in_hosts. apply in_answering.
  - intros h o H D. rewrite in_hosts, in_answering. intros [o' [H' L]].
    assert (o = o') as <-.
    { apply (unique_ending (probes os subnet w) h); auto.
      rewrite probes_numbers. apply seq_NoDup. }
    destruct (dead_end_not_live o D) as [_ L']. congruence.
Qed.

Lemma attempts_table {W} (os : subprocess W) (table : str -> outcome) :
  (forall command w, fst (attempt os command w) = table command) ->
  forall commands w, fst (attempts os commands w) = map table commands.
Proof.
  intros T commands; induction commands as [|c cs IH]; intros w;
    cbn [attempts map]; [reflexivity|].
  unfold bind. specialize (T c w).
  destruct (attempt os c w) as [o w1]; cbn [fst] in T; subst o.
  specialize (IH w1). destruct (attempts os cs w1) as [outs w2].
  cbn [fst] in *. subst outs; reflexivity.
Qed.

(** C9.  When the ending of a command is a fixed function of the command
    string, a sweep of a subnet returns the same list from every state of
    the operating system; in particular a second sweep, run after the
    first, returns the list the first returned. *)
Theorem sweep_deterministic {W} (os : subprocess W)
    (table : str -> outcome) :
  (forall command w, fst (attempt os command w) = table command) ->
  forall subnet w,
    (forall w', fst (scan_network os subnet w') =
                fst (scan_network os subnet w)) /\
    fst (scan_network os subnet (snd (scan_network os subnet w))) =
    fst (scan_network os subnet w).
Proof.
  intros T subnet w.
  assert (forall w', fst (scan_network os subnet w') =
                     fst (scan_network os subnet w)) as E.
  { intros w'. rewrite !scan_answering; cbn [fst]. unfold probes.
    rewrite !(attempts_table os table T); reflexivity. }
  split; [exact E | apply E].
Qed.

Lemma fake_table (script : str -> Fake.behaviour) command w :
  fst (attempt (Fake.os script) command w) =
  match script command with
  | Fake.Exits out err rc => Completed out err rc
  | Fake.Hangs => Expired
  | Fake.FailsToLaunch e => Raised e
  | Fake.Undecodable e => Raised e
  end.
Proof.
  unfold attempt, bind, ret; cbn [Fake.os Popen communicate].
  destruct (script command) eqn:E; cbn [Fake.started Fake.command_of];
    try reflexivity;
    rewrite Nat.eqb_refl, E; reflexivity.
Qed.

Lemma sweep_deterministic_witness :
  (forall command w,
      fst (attempt (Fake.os Fake.two_hosts) command w) =
      match Fake.two_hosts command with
      | Fake.Exits out err rc => Completed out err rc
      | Fake.Hangs => Expired
      | Fake.FailsToLaunch e => Raised e
      | Fake.Undecodable e => Raised e
      end) /\
  fst (scan_network (Fake.os Fake.two_hosts) (py "10.0.0")
         (snd (scan_network (Fake.os Fake.two_hosts) (py "10.0.0")
                 Fake.boot))) =
  fst (scan_network (Fake.os Fake.two_hosts) (py "10.0.0") Fake.boot).
Proof.
  split; [exact (fake_table Fake.two_hosts)|].
  exact (proj2 (sweep_deterministic (Fake.os Fake.two_hosts) _
                  (fake_table Fake.two_hosts) (py "10.0.0") Fake.boot)).
Defined.

(** ** Failed runs *)

Lemma failed_not_stored (ends : list (str * outcome)) key o :
  NoDup (map fst ends) -> In (key, o) ends ->
  failed (result_of o) = true -> dict_get (stored ends) key = None.
Proof.
  intros N H F. apply dict_get_none.
  rewrite keys_stored, in_map_iff. intros [[k o'] [E H']].
  simpl in E; subst k. apply filter_In in H'; simpl in H'.
  destruct H' as [H' F'].
  rewrite (unique_ending ends key o o' N H H') in F.
  rewrite F in F'; discriminate.
Qed.

Lemma error_empty_not_failed (o : outcome) :
  snd (result_of o) = Some [] <-> failed (result_of o) = false.
Proof.
  unfold failed. destruct o as [out err rc| |e]; cbn [result_of snd].
  - destruct err; cbn [truthy]; split; intros H; try reflexivity;
      discriminate.
  - split; discriminate.
  - destruct e; cbn [truthy]; split; intros H; try reflexivity;
      discriminate.
Qed.

(** C10, as stated, fails: a run that exits with text on both streams is
    failed, yet its output is not empty and carries the reply marker. *)
Lemma failed_run_keeps_output :
  let r := fst (run_command (Fake.os Fake.noisy_reply)
                  (py "ping -n 1 -w 200 10.0.0.5") Fake.boot) in
  ~ (failed r = true -> fst r = [] /\ live r = false).
Proof.
  intros r H. destruct (H eq_refl) as [E _]. vm_compute in E. discriminate.
Qed.

(** C10, amended.  A collector stores a label exactly when the error
    component of its run is empty, whatever the output: a run with empty
    error and empty output leaves the label with the empty string, and a
    run with a non-empty error leaves the label absent.  A run that timed
    out or raised returns the empty output, which does not carry the reply
    marker, so the sweep never lists its address; a run that exits normally
    returns its trimmed standard output whether or not it counts as
    failed. *)
Theorem presence_by_error_alone {W} (os : subprocess W)
    (commands : list (str * str)) (w : W) :
  NoDup (map fst commands) ->
  let info := fst (collect os commands w) in
  let ends := endings os commands w in
  (forall key o,
      In (key, o) ends -> snd (result_of o) = Some [] ->
      dict_get info key = Some (fst (result_of o))) /\
  (forall key o,
      In (key, o) ends -> result_of o = ([], Some []) ->
      dict_get info key = Some []) /\
  (forall key o,
      In (key, o) ends -> snd (result_of o) <> Some [] ->
      dict_get info key = None) /\
  (forall o, o = Expired \/ (exists e, o = Raised e) ->
             fst (result_of o) = [] /\ live (result_of o) = false) /\
  (forall subnet w' h o,
      In (h, o) (probes os subnet w') ->
      o = Expired \/ (exists e, o = Raised e) ->
      ~ In (host_address subnet h) (fst (scan_network os subnet w'))) /\
  (forall stdout stderr returncode,
      fst (result_of (Completed stdout stderr returncode)) = strip stdout).
Proof.
  intros N info ends. subst info.
  rewrite (collect_stored _ os commands w N); cbn [fst]. fold ends.
  assert (NoDup (map fst ends)) as N'
    by (unfold ends; rewrite endings_labels; exact N).
  assert (forall key o,
             In (key, o) ends -> snd (result_of o) = Some [] ->
             dict_get (stored ends) key = Some (fst (result_of o))) as P.
  { intros key o H E. apply dict_get_in.
    - apply NoDup_keys_stored; exact N'.
    - apply in_stored; [exact H | apply error_empty_not_failed; exact E]. }
  repeat split.
  - exact P.
  - intros key o H E. rewrite (P key o H); rewrite E; reflexivity.
  - intros key o H E. apply (failed_not_stored ends key o N' H).
    destruct (failed (result_of o)) eqn:F; [reflexivity|].
    apply error_empty_not_failed in F; contradiction.
  - apply dead_end_not_live; assumption.
  - apply dead_end_not_live; assumption.
  - intros subnet w' h o H D.
    rewrite scan_answering; cbn [fst].
    rewrite in_hosts, in_answering. intros [o' [H' L]].
    assert (o = o') as <-.
    { apply (unique_ending (probes os subnet w') h); auto.
      rewrite probes_numbers. apply seq_NoDup. }
    destruct (dead_end_not_live o D) as [_ L']. congruence.
Qed.

Lemma presence_by_error_alone_witness :
  NoDup (map fst system_commands) /\
  dict_get (fst (collect (Fake.os Fake.mixed) system_commands Fake.boot))
    (py "Running Services") = Some [].
Proof.
  split; [exact system_labels_distinct|].
  apply (proj1 (proj2 (presence_by_error_alone (Fake.os Fake.mixed)
                         system_commands Fake.boot
                         system_labels_distinct))
           (py "Running Services") (Completed [] [] 0)).
  - apply (nth_error_In _ 4). vm_compute; reflexivity.
  - reflexivity.
Defined.

(** C4, as stated, fails: after a wait that expired the failure reason is
    not "timed out", and the child is still running. *)
Lemma timeout_reason_and_child :
  let r := run_command (Fake.os Fake.all_hang) (py "hostname") Fake.boot in
  snd (fst r) <> Some (py "timed out") /\
  running (Fake.os Fake.all_hang) 0 (snd r) <> false.
Proof. split; vm_compute; discriminate. Qed.

(** C4, amended.  When the wait for the child expires, the runner returns
    the empty output with the error "Command timed out", which counts as
    failed; it makes no further call on the child, so the operating system
    is left as the expired wait left it and a child that was still running
    then is still running when the runner returns.  (How long the runner
    takes is outside this model.) *)
Theorem run_command_timeout {W} (os : subprocess W) command w process w1
    w2 :
  Popen os command w = (Started process, w1) ->
  communicate os process w1 = (TimeoutExpired, w2) ->
  run_command os command w = (([], Some (py "Command timed out")), w2) /\
  failed ([], Some (py "Command timed out")) = true /\
  (running os process w2 = true ->
   running os process (snd (run_command os command w)) = true).
Proof.
  intros P C.
  assert (run_command os command w =
          (([], Some (py "Command timed out")), w2)) as E.
  { rewrite run_command_ending,
      (attempt_started_expired os _ _ _ _ _ P C); reflexivity. }
  rewrite E. repeat split; auto.
Qed.

Lemma run_command_timeout_witness :
  run_command (Fake.os Fake.all_hang) (py "hostname") Fake.boot =
    (([], Some (py "Command timed out")),
     snd (Popen (Fake.os Fake.all_hang) (py "hostname") Fake.boot)) /\
  failed ([], Some (py "Command timed out")) = true /\
  (running (Fake.os Fake.all_hang) 0
     (snd (Popen (Fake.os Fake.all_hang) (py "hostname") Fake.boot)) = true ->
   running (Fake.os Fake.all_hang) 0
     (snd (run_command (Fake.os Fake.all_hang) (py "hostname") Fake.boot))
   = true).
Proof.
  apply (run_command_timeout (Fake.os Fake.all_hang) (py "hostname")
           Fake.boot 0
           (snd (Popen (Fake.os Fake.all_hang) (py "hostname") Fake.boot))
           (snd (Popen (Fake.os Fake.all_hang) (py "hostname") Fake.boot)));
    reflexivity.
Defined.

Lemma for_each_app {W A S} (body : A -> S -> M W S) (l l' : list A)
    (acc : S) (w : W) :
  for_each body (l ++ l') acc w =
  for_each body l' (fst (for_each body l acc w))
    (snd (for_each body l acc w)).
Proof.
  revert acc w; induction l as [|x l IH]; intros acc w; cbn [for_each app];
    [reflexivity|].
  unfold bind. destruct (body x acc w) as [acc' w']. apply IH.
Qed.

(** C8.  The code misses the claim where the exception raised at launch
    has an empty description: the runner then returns the empty output
    with an empty error component, which does not count as failed, and a
    collector stores the label with the empty string as if the command had
    succeeded.  The handler next to it, for an expired wait, returns a
    reason that does count as failed. *)
Theorem launch_failure_empty_description {W} (os : subprocess W)
    (key command : str) (w w1 : W) :
  Popen os command w = (PopenRaised [], w1) ->
  run_command os command w = (([], Some []), w1) /\
  failed (fst (run_command os command w)) = false /\
  collect os [(key, command)] w = ([(key, [])], w1) /\
  failed (result_of Expired) = true.
Proof.
  intros P.
  assert (run_command os command w = (([], Some []), w1)) as R.
  { rewrite run_command_ending, (attempt_not_started os _ _ _ _ P).
    reflexivity. }
  rewrite R. repeat split; try reflexivity.
  unfold collect; cbn [for_each]. unfold bind.
  rewrite collect_step_ending, (attempt_not_started os _ _ _ _ P).
  reflexivity.
Qed.

Lemma launch_failure_empty_description_witness :
  Popen (Fake.os Fake.silent_failure) (py "hostname") Fake.boot =
    (PopenRaised [], Fake.boot) /\
  run_command (Fake.os Fake.silent_failure) (py "hostname") Fake.boot =
    (([], Some []), Fake.boot) /\
  failed (fst (run_command (Fake.os Fake.silent_failure) (py "hostname")
                 Fake.boot)) = false /\
  collect (Fake.os Fake.silent_failure) [(py "Hostname", py "hostname")]
    Fake.boot = ([(py "Hostname", [])], Fake.boot) /\
  failed (result_of Expired) = true.
Proof.
  split; [reflexivity|].
  apply (launch_failure_empty_description (Fake.os Fake.silent_failure)
           (py "Hostname") (py "hostname") Fake.boot Fake.boot).
  reflexivity.
Defined.

(** X16.  When the launch of a command raises with a non-empty
    description, the runner returns the empty output with that description
    as its error component, which counts as failed.  The collector does not
    stop there: it keeps the map it has built, goes on with the remaining
    commands from the state the failure left, and in every case hands each
    command of the set to the operating system, in order. *)
Theorem launch_failure_skipped {W} (os : subprocess W)
    (before : list (str * str)) (key command : str)
    (after : list (str * str)) (w : W) (e : str) (w1 : W) :
  Popen os command (snd (collect os before w)) = (PopenRaised e, w1) ->
  e <> [] ->
  run_command os command (snd (collect os before w)) = (([], Some e), w1) /\
  failed ([], Some e) = true /\
  collect os (before ++ (key, command) :: after) w =
    for_each (collect_step os) after (fst (collect os before w)) w1 /\
  snd (snd (collect (logged os) (before ++ (key, command) :: after)
              (w, []))) =
    map snd (before ++ (key, command) :: after).
Proof.
  intros P E.
  assert (run_command os command (snd (collect os before w)) =
          (([], Some e), w1)) as R.
  { rewrite run_command_ending, (attempt_not_started os _ _ _ _ P).
    reflexivity. }
  assert (failed ([], Some e) = true) as F
    by (apply failed_iff_error; exact E).
  repeat split; auto.
  - unfold collect at 1. rewrite for_each_app. fold (collect os before).
    cbn [for_each]. unfold bind.
    rewrite collect_step_ending, (attempt_not_started os _ _ _ _ P).
    cbn [fst snd]. unfold store; cbn [fst snd result_of].
    rewrite F; reflexivity.
  - rewrite collect_logged; reflexivity.
Qed.

Lemma launch_failure_skipped_witness :
  py "[WinError 5] Access is denied" <> [] /\
  collect (Fake.os Fake.mixed)
    ([(py "Hostname", py "hostname")]
       ++ (py "User Accounts", py "net users")
       :: [(py "Network Shares", py "net share")]) Fake.boot =
  for_each (collect_step (Fake.os Fake.mixed))
    [(py "Network Shares", py "net share")]
    (fst (collect (Fake.os Fake.mixed) [(py "Hostname", py "hostname")]
            Fake.boot))
    (snd (collect (Fake.os Fake.mixed) [(py "Hostname", py "hostname")]
            Fake.boot)).
Proof.
  split; [discriminate|].
  apply (launch_failure_skipped (Fake.os Fake.mixed)
           [(py "Hostname", py "hostname")]
           (py "User Accounts") (py "net users")
           [(py "Network Shares", py "net share")]
           Fake.boot (py "[WinError 5] Access is denied")).
  - vm_compute; reflexivity.
  - discriminate.
Defined.

(** ** The report *)

Lemma system_phase_eq {W} (os : subprocess W) t w :
  system_phase os t w =
  (set_system_info (fst (get_system_info os w)) t,
   snd (get_system_info os w)).
Proof.
  unfold system_phase, bind, ret.
  destruct (get_system_info os w); reflexivity.
Qed.

Lemma network_phase_eq {W} (os : subprocess W) t w :
  network_phase os t w =
  (set_network_info (fst (get_network_info os w)) t,
   snd (get_network_info os w)).
Proof.
  unfold network_phase, bind, ret.
  destruct (get_network_info os w); reflexivity.
Qed.

Lemma sweep_phase_eq {W} (os : subprocess W) subnet t w :
  sweep_phase os subnet t w =
  match subnet with
  | Some (c :: s) =>
      (set_active_hosts (fst (scan_network os (c :: s) w)) t,
       snd (scan_network os (c :: s) w))
  | _ => (t, w)
  end.
Proof.
  destruct subnet as [[|c s]|]; try reflexivity.
  unfold sweep_phase, bind, ret; cbn [truthy].
  destruct (scan_network os (c :: s) w); reflexivity.
Qed.

(** C7.  The timestamp of the report is the one given at creation and no
    phase changes it.  Each phase assigns its own field once and leaves the
    other three as they were: the system phase [system_info], the network
    phase [network_info], the sweep [active_hosts] (and nothing when no
    subnet, or an empty one, is given).  A run from a fresh tool therefore
    assigns [system_info], then [network_info], then [active_hosts] only
    if a subnet was given, each once and the timestamp never; with no
    subnet [active_hosts] is still the empty list, and the two maps are
    what the two collectors returned. *)
Theorem run_scan_fields {W} (os : subprocess W) (now : str) (t : tool)
    (w : W) :
  (let t1 := fst (system_phase os t w) in
   timestamp (results t1) = timestamp (results t) /\
   system_info (results t1) = fst (get_system_info os w) /\
   network_info (results t1) = network_info (results t) /\
   active_hosts (results t1) = active_hosts (results t) /\
   writes t1 = writes t ++ [SystemInfo]) /\
  (let t1 := fst (network_phase os t w) in
   timestamp (results t1) = timestamp (results t) /\
   system_info (results t1) = system_info (results t) /\
   network_info (results t1) = fst (get_network_info os w) /\
   active_hosts (results t1) = active_hosts (results t) /\
   writes t1 = writes t ++ [NetworkInfo]) /\
  (forall c s,
   let t1 := fst (sweep_phase os (Some (c :: s)) t w) in
   timestamp (results t1) = timestamp (results t) /\
   system_info (results t1) = system_info (results t) /\
   network_info (results t1) = network_info (results t) /\
   active_hosts (results t1) = fst (scan_network os (c :: s) w) /\
   writes t1 = writes t ++ [ActiveHosts]) /\
  sweep_phase os None t w = (t, w) /\
  sweep_phase os (Some []) t w = (t, w) /\
  (forall subnet,
   timestamp (results (fst (run_scan os subnet t w))) =
   timestamp (results t)) /\
  (forall subnet,
   let t' := fst (run_scan os subnet (init now) w) in
   timestamp (results t') = now /\
   system_info (results t') = fst (get_system_info os w) /\
   network_info (results t') =
     fst (get_network_info os (snd (get_system_info os w))) /\
   writes t' =
     [SystemInfo; NetworkInfo]
       ++ (if truthy subnet then [ActiveHosts] else []) /\
   NoDup (writes t') /\
   ~ In Timestamp (writes t')) /\
  active_hosts (results (fst (run_scan os None (init now) w))) = [] /\
  active_hosts (results (fst (run_scan os (Some []) (init now) w))) = [].
Proof.
  assert (forall subnet u,
             run_scan os subnet u w =
             sweep_phase os subnet
               (set_network_info
                  (fst (get_network_info os (snd (get_system_info os w))))
                  (set_system_info (fst (get_system_info os w)) u))
               (snd (get_network_info os (snd (get_system_info os w)))))
    as R.
  { intros subnet u. unfold run_scan, bind.
    rewrite system_phase_eq, network_phase_eq; reflexivity. }
  split; [rewrite system_phase_eq; cbn; repeat split; reflexivity|].
  split; [rewrite network_phase_eq; cbn; repeat split; reflexivity|].
  split; [intros c s; rewrite sweep_phase_eq; cbn; repeat split;
          reflexivity|].
  split; [reflexivity|]. split; [reflexivity|].
  split; [|split; [|split]].
  - intros subnet. rewrite R, sweep_phase_eq.
    destruct subnet as [[|c s]|]; reflexivity.
  - intros subnet t'. subst t'. rewrite R, sweep_phase_eq.
    destruct subnet as [[|c s]|]; cbn;
      (repeat split; try reflexivity;
       [repeat constructor; cbn; intuition discriminate
       |cbn; intuition discriminate]).
  - rewrite R; reflexivity.
  - rewrite R; reflexivity.
Qed.

(** ** Scenarios *)

Example strip_keeps_inner_space :
  strip (py " " ++ [9; 160]%N ++ py "Reply from  x" ++ [13; 10; 8195]%N)
  = py "Reply from  x".
Proof. reflexivity. Qed.

Example contains_marker :
  contains (py "Reply from") (py "Pinging 10.0.0.5: Reply from 10.0.0.5")
  = true /\
  contains (py "Reply from") (py "Request timed out.") = false /\
  contains (py "Reply from") [] = false.
Proof. repeat split; reflexivity. Qed.

Example sweep_two_hosts :
  fst (scan_network (Fake.os Fake.two_hosts) (py "10.0.0") Fake.boot)
  = [py "10.0.0.5"; py "10.0.0.200"].
Proof. vm_compute; reflexivity. Qed.

Example sweep_leaves_hung_children :
  List.length
    (Fake.alive (snd (scan_network (Fake.os Fake.two_hosts) (py "10.0.0")
                        Fake.boot))) = 252.
Proof. vm_compute; reflexivity. Qed.

Example collect_hostname :
  fst (collect (Fake.os Fake.mixed) [(py "Hostname", py "hostname")]
         Fake.boot)
  = [(py "Hostname", py "HOST1")].
Proof. vm_compute; reflexivity. Qed.

Example system_info_mixed :
  fst (get_system_info (Fake.os Fake.mixed) Fake.boot)
  = [(py "Hostname", py "HOST1"); (py "Running Services", [])].
Proof. vm_compute; reflexivity. Qed.

Example silent_failure_is_stored :
  fst (collect (Fake.os Fake.silent_failure)
         [(py "Hostname", py "hostname")] Fake.boot)
  = [(py "Hostname", [])].
Proof. vm_compute; reflexivity. Qed.

Example run_without_subnet :
  let t := fst (run_scan (Fake.os Fake.all_echo) None
                  (init (py "2024-01-01T00:00:00")) Fake.boot) in
  timestamp (results t) = py "2024-01-01T00:00:00" /\
  keys (system_info (results t)) = map fst system_commands /\
  keys (network_info (results t)) = map fst network_commands /\
  active_hosts (results t) = [] /\
  writes t = [SystemInfo; NetworkInfo].
Proof. vm_compute; repeat split; reflexivity. Qed.

Example run_with_subnet :
  let t := fst (run_scan (Fake.os Fake.two_hosts) (Some (py "10.0.0"))
                  (init (py "2024-01-01T00:00:00")) Fake.boot) in
  system_info (results t) = [] /\
  network_info (results t) = [] /\
  active_hosts (results t) = [py "10.0.0.5"; py "10.0.0.200"] /\
  writes t = [SystemInfo; NetworkInfo; ActiveHosts].
Proof. vm_compute; repeat split; reflexivity. Qed.

(** * Further properties *)

(** ** Trimming and the substring test *)

Lemma lstrip_fixed (t : str) :
  (forall c rest, t = c :: rest -> isspace c = false) -> lstrip t = t.
Proof.
  destruct t as [|c rest]; simpl; intros H; [reflexivity|].
  rewrite (H c rest eq_refl); reflexivity.
Qed.

Lemma rstrip_fixed (t : str) :
  (forall body c, t = body ++ [c] -> isspace c = false) -> rstrip t = t.
Proof.
  intros H. unfold rstrip. rewrite lstrip_fixed; [apply rev_involutive|].
  intros c rest E. apply (H (rev rest) c).
  rewrite <- (rev_involutive t), E; reflexivity.
Qed.

Lemma strip_idempotent (s : str) : strip (strip s) = strip s.
Proof.
  destruct (strip_spec s) as [_ [Hh Ht]].
  unfold strip at 1. rewrite (lstrip_fixed _ Hh). apply rstrip_fixed, Ht.
Qed.

Lemma startswith_iff (s p : str) :
  startswith s p = true <-> exists suf, s = p ++ suf.
Proof.
  revert s; induction p as [|x p IH]; intros [|y s]; simpl.
  - split; [intros _; exists []; reflexivity | reflexivity].
  - split; [intros _; exists (y :: s); reflexivity | reflexivity].
  - split; [discriminate | intros [? H]; discriminate].
  - rewrite andb_true_iff, N.eqb_eq, IH. split.
    + intros [-> [suf ->]]; exists suf; reflexivity.
    + intros [suf H]; inversion H; subst; eauto.
Qed.

Lemma contains_iff (needle hay : str) :
  contains needle hay = true <-> exists pre suf, hay = pre ++ needle ++ suf.
Proof.
  induction hay as [|c hay IH]; cbn [contains].
  - rewrite startswith_iff. split.
    + intros [suf H]. exists [], suf; exact H.
    + intros [pre [suf H]]. destruct pre; [|discriminate].
      exists suf; exact H.
  - rewrite orb_true_iff, IH, (startswith_iff (c :: hay) needle). split.
    + intros [[suf H]|[pre [suf H]]].
      * exists [], suf; exact H.
      * exists (c :: pre), suf; rewrite H; reflexivity.
    + intros [[|d pre] [suf H]].
      * left; exists suf; exact H.
      * right; inversion H; subst; eauto.
Qed.

Lemma bool_eq_iff (a b : bool) : (a = true <-> b = true) -> a = b.
Proof. destruct a, b; intuition congruence. Qed.

Lemma contains_rev (needle hay : str) :
  contains (rev needle) (rev hay) = contains needle hay.
Proof.
  apply bool_eq_iff. rewrite !contains_iff.
  split; intros [pre [suf H]]; exists (rev suf), (rev pre).
  - rewrite <- (rev_involutive hay), H, !rev_app_distr, rev_involutive,
      app_assoc; reflexivity.
  - rewrite H, !rev_app_distr, app_assoc; reflexivity.
Qed.

Lemma contains_lstrip (needle hay : str) c rest :
  needle = c :: rest -> isspace c = false ->
  contains needle (lstrip hay) = contains needle hay.
Proof.
  intros -> Hc. induction hay as [|x hay IH]; [reflexivity|].
  cbn [lstrip]. destruct (isspace x) eqn:Hx; [|reflexivity].
  rewrite IH. cbn [contains startswith].
  destruct (N.eqb_spec c x) as [->|_]; [congruence | reflexivity].
Qed.

Lemma contains_rstrip (needle hay : str) body c :
  needle = body ++ [c] -> isspace c = false ->
  contains needle (rstrip hay) = contains needle hay.
Proof.
  intros E Hc. unfold rstrip.
  rewrite <- contains_rev, rev_involutive.
  rewrite (contains_lstrip (rev needle) (rev hay) c (rev body));
    [apply contains_rev | | exact Hc].
  rewrite E, rev_app_distr; reflexivity.
Qed.

Lemma contains_strip (needle hay : str) c rest body d :
  needle = c :: rest -> isspace c = false ->
  needle = body ++ [d] -> isspace d = false ->
  contains needle (strip hay) = contains needle hay.
Proof.
  intros E Hc E' Hd. unfold strip.
  rewrite (contains_rstrip needle _ body d E' Hd).
  apply (contains_lstrip needle _ c rest E Hc).
Qed.

(** ** More on the runner *)

Lemma result_trimmed (o : outcome) : strip (fst (result_of o)) = fst (result_of o).
Proof. destruct o; [apply strip_idempotent | reflexivity | reflexivity]. Qed.

(** X1.  Whatever happens, the output [run_command] returns is trimmed:
    stripping it again changes nothing, and it neither begins nor ends with
    whitespace. *)
Theorem run_command_output_trimmed {W} (os : subprocess W) command w :
  let r := fst (run_command os command w) in
  strip (fst r) = fst r /\
  (forall c rest, fst r = c :: rest -> isspace c = false) /\
  (forall body c, fst r = body ++ [c] -> isspace c = false).
Proof.
  rewrite run_command_ending; cbn [fst].
  destruct (fst (attempt os command w)) as [out err rc| |e]; cbn.
  - destruct (strip_spec out) as [_ [Hh Ht]].
    repeat split; eauto using strip_idempotent.
  - repeat split; eauto; try discriminate.
    intros [|] ? H; discriminate.
  - repeat split; eauto; try discriminate.
    intros [|] ? H; discriminate.
Qed.

(** X2.  One call of [run_command] is one attempt: it launches the command
    once, waits once on the child that launch returned, and makes no other
    call; when the launch raises it does not wait at all.  Recording the
    calls changes neither the result nor the state it leaves. *)
Theorem run_command_single_attempt {W} (os : subprocess W) command w log :
  let traced_run := run_command (traced os) command (w, log) in
  fst traced_run = fst (run_command os command w) /\
  fst (snd traced_run) = snd (run_command os command w) /\
  snd (snd traced_run) =
    log ++ match fst (Popen os command w) with
           | Started process => [Launched command; Waited process]
           | PopenRaised _ => [Launched command]
           end.
Proof.
  unfold run_command, attempt, bind, ret; cbn [traced Popen communicate fst snd].
  destruct (Popen os command w) as [[process|e] w1]; cbn [fst snd].
  - destruct (communicate os process w1) as [[out err rc| |e] w2];
      cbn [fst snd]; rewrite <- app_assoc; repeat split; reflexivity.
  - repeat split; reflexivity.
Qed.

(** ** More on the sweep *)

Lemma live_completed stdout stderr returncode :
  live (result_of (Completed stdout stderr returncode)) =
  contains (py "Reply from") stdout.
Proof.
  unfold live; cbn [result_of fst].
  apply (contains_strip _ stdout 82%N (py "eply from") (py "Reply fro")
           109%N); reflexivity.
Qed.

(** X3.  Trimming does not affect the classification of a probe: an
    address subnet.h is listed exactly when its ping exited, with whatever
    return code and standard error, and the captured standard output, as
    captured, has "Reply from" somewhere in it. *)
Theorem listed_iff_raw_stdout_has_marker {W} (os : subprocess W)
    (subnet : str) (w : W) (h : nat) :
  In (host_address subnet h) (fst (scan_network os subnet w)) <->
  exists stdout stderr returncode pre suf,
    In (h, Completed stdout stderr returncode) (probes os subnet w) /\
    stdout = pre ++ py "Reply from" ++ suf.
Proof.
  rewrite scan_answering; cbn [fst]. rewrite in_hosts, in_answering. split.
  - intros [[out err rc| |e] [H L]]; try discriminate.
    rewrite live_completed in L. apply contains_iff in L.
    destruct L as [pre [suf E]]. exists out, err, rc, pre, suf; auto.
  - intros [out [err [rc [pre [suf [H E]]]]]].
    exists (Completed out err rc). split; [exact H|].
    rewrite live_completed. apply contains_iff; eauto.
Qed.

Lemma answering_NoDup (ends : list (nat * outcome)) :
  NoDup (map fst ends) -> NoDup (answering ends).
Proof.
  unfold answering. induction ends as [|e ends IH]; simpl; intros N;
    [constructor|].
  inversion N as [|? ? Hk N']; subst.
  destruct (live (result_of (snd e))); simpl; [|auto].
  constructor; [|auto].
  intros H; apply Hk. apply in_map_iff in H; destruct H as [e' [E H]].
  apply filter_In in H. apply in_map_iff; exists e'; tauto.
Qed.

Lemma hosts_NoDup (subnet : str) (hs : list nat) :
  NoDup hs -> NoDup (map (host_address subnet) hs).
Proof.
  induction hs as [|h hs IH]; simpl; intros N; [constructor|].
  inversion N; subst. constructor; [rewrite in_hosts|]; auto.
Qed.

(** X4.  The list a sweep returns never holds an address twice. *)
Theorem sweep_no_duplicates {W} (os : subprocess W) (subnet : str) (w : W) :
  NoDup (fst (scan_network os subnet w)).
Proof.
  rewrite scan_answering; cbn [fst].
  apply hosts_NoDup, answering_NoDup.
  rewrite probes_numbers. apply seq_NoDup.
Qed.

Lemma filter_all {A} (f : A -> bool) (l : list A) :
  (forall x, In x l -> f x = true) -> filter f l = l.
Proof.
  induction l as [|x l IH]; simpl; intros H; [reflexivity|].
  rewrite (H x) by (left; reflexivity). f_equal; apply IH; auto.
Qed.

Lemma filter_none {A} (f : A -> bool) (l : list A) :
  filter f l = [] <-> forall x, In x l -> f x = false.
Proof.
  induction l as [|x l IH]; simpl.
  - split; [intros _ ? [] | reflexivity].
  - destruct (f x) eqn:E; split.
    + discriminate.
    + intros H. specialize (H x (or_introl eq_refl)). congruence.
    + intros H y [<-|H']; [exact E | apply IH; assumption].
    + intros H. apply IH; auto.
Qed.

(** X5.  A sweep returns as many addresses as probes carried the marker;
    it returns the empty list exactly when none did (an unreachable or
    malformed subnet), and all 254 addresses in order when all did. *)
Theorem sweep_count {W} (os : subprocess W) (subnet : str) (w : W) :
  let hosts := fst (scan_network os subnet w) in
  let ends := probes os subnet w in
  List.length hosts =
    List.length (filter (fun e => live (result_of (snd e))) ends) /\
  (hosts = [] <-> forall h o, In (h, o) ends -> live (result_of o) = false) /\
  ((forall h o, In (h, o) ends -> live (result_of o) = true) ->
   hosts = map (host_address subnet) (seq 1 254)).
Proof.
  intros hosts ends; subst hosts ends.
  rewrite scan_answering; cbn [fst]. unfold answering.
  split; [rewrite !length_map; reflexivity|]. split.
  - split.
    + intros E h o H.
      apply (f_equal (@List.length _)) in E. rewrite !length_map in E.
      apply length_zero_iff_nil in E.
      exact (proj1 (filter_none _ _) E (h, o) H).
    + intros H. rewrite (proj2 (filter_none _ _)); [reflexivity|].
      intros [h o] H'; exact (H h o H').
  - intros H. rewrite filter_all by (intros [h o] H'; exact (H h o H')).
    rewrite probes_numbers; reflexivity.
Qed.

(** ** More on the collectors *)

Lemma before_in_filtered {A B} (g : A -> B) (f : A -> bool) (l : list A) :
  forall l1 x l2 y l3,
    map g (filter f l) = l1 ++ x :: l2 ++ y :: l3 ->
    exists m1 m2 m3, map g l = m1 ++ x :: m2 ++ y :: m3.
Proof.
  induction l as [|e l IH]; intros l1 x l2 y l3 E; simpl in E.
  - destruct l1; discriminate.
  - destruct (f e) eqn:F.
    + destruct l1 as [|z l1]; simpl in E; inversion E as [[Ex E']].
      * assert (In y (map g l)) as Hy.
        { assert (In y (map g (filter f l))) as Hy
            by (rewrite E'; apply in_or_app; right; left; reflexivity).
          apply in_map_iff in Hy. destruct Hy as [a [Ea Ha]].
          apply filter_In in Ha. apply in_map_iff; exists a; tauto. }
        apply in_split in Hy. destruct Hy as [m2 [m3 Hy]].
        exists [], m2, m3. simpl. rewrite Hy; reflexivity.
      * destruct (IH _ _ _ _ _ E') as [m1 [m2 [m3 H]]].
        exists (g e :: m1), m2, m3. simpl. rewrite H; reflexivity.
    + destruct (IH _ _ _ _ _ E) as [m1 [m2 [m3 H]]].
      exists (g e :: m1), m2, m3. simpl. rewrite H; reflexivity.
Qed.

(** X6.  The map a collector returns keeps the declaration order of the
    command set: its keys are the labels of the commands that succeeded, in
    the order they were declared, no label twice; a label that stands
    before another in the map stands before it in the command set.  Every
    value in the map is trimmed. *)
Theorem collect_keeps_declaration_order {W} (os : subprocess W)
    (commands : list (str * str)) (w : W) :
  NoDup (map fst commands) ->
  let info := fst (collect os commands w) in
  keys info =
    map fst (filter (fun e => negb (failed (result_of (snd e))))
               (endings os commands w)) /\
  NoDup (keys info) /\
  (forall l1 k1 l2 k2 l3,
      keys info = l1 ++ k1 :: l2 ++ k2 :: l3 ->
      exists m1 m2 m3, map fst commands = m1 ++ k1 :: m2 ++ k2 :: m3) /\
  (forall key value, In (key, value) info -> strip value = value).
Proof.
  intros N info; subst info.
  rewrite (collect_stored _ os commands w N); cbn [fst].
  assert (NoDup (map fst (endings os commands w))) as N'
    by (rewrite endings_labels; exact N).
  split; [apply keys_stored|]. split; [apply NoDup_keys_stored; exact N'|].
  split.
  - intros l1 k1 l2 k2 l3 E. rewrite keys_stored in E.
    rewrite <- (endings_labels _ os commands w).
    exact (before_in_filtered _ _ _ _ _ _ _ _ E).
  - intros key value H. unfold stored in H. apply in_map_iff in H.
    destruct H as [[k o] [E _]]. inversion E; subst.
    apply result_trimmed.
Qed.

Lemma collect_keeps_declaration_order_witness :
  NoDup (map fst system_commands) /\
  keys (fst (collect (Fake.os Fake.mixed) system_commands Fake.boot)) =
  [py "Hostname"; py "Running Services"].
Proof.
  split; [exact system_labels_distinct|].
  rewrite (proj1 (collect_keeps_declaration_order (Fake.os Fake.mixed)
                    system_commands Fake.boot system_labels_distinct)).
  vm_compute; reflexivity.
Defined.

Lemma dict_set_length (d : dict) (k v : str) :
  List.length (dict_set d k v) <= S (List.length d).
Proof.
  induction d as [|[k' v'] d IH]; simpl; [lia|].
  destruct (str_eqb k' k); simpl; lia.
Qed.

Lemma fold_store_length (ends : list (str * outcome)) (acc : dict) :
  List.length (fold_left store ends acc)
  <= List.length acc
     + List.length (filter (fun e => negb (failed (result_of (snd e)))) ends).
Proof.
  revert acc; induction ends as [|e ends IH]; intros acc; simpl; [lia|].
  specialize (IH (store acc e)). unfold store in *.
  destruct (negb (failed (result_of (snd e)))); simpl; [|lia].
  pose proof (dict_set_length acc (fst e) (fst (result_of (snd e)))). lia.
Qed.

Lemma filter_length_le {A} (f : A -> bool) (l : list A) :
  List.length (filter f l) <= List.length l.
Proof.
  induction l as [|x l IH]; simpl; [lia|]. destruct (f x); simpl; lia.
Qed.

(** X7.  A collector returns at most one entry for each command that
    succeeded, hence never more entries than commands: at most five for
    each of the two fixed sets.  This needs no assumption on the labels. *)
Theorem collect_size {W} (os : subprocess W) (commands : list (str * str))
    (w : W) :
  List.length (fst (collect os commands w))
  <= List.length (filter (fun e => negb (failed (result_of (snd e))))
                    (endings os commands w)) /\
  List.length (fst (collect os commands w)) <= List.length commands /\
  List.length (fst (get_system_info os w)) <= 5 /\
  List.length (fst (get_network_info os w)) <= 5.
Proof.
  assert (forall cs w',
             List.length (fst (collect os cs w'))
             <= List.length
                  (filter (fun e => negb (failed (result_of (snd e))))
                     (endings os cs w'))) as A.
  { intros cs w'. unfold collect. rewrite collect_loop; cbn [fst].
    apply (fold_store_length _ []). }
  assert (forall cs w',
             List.length (fst (collect os cs w')) <= List.length cs) as B.
  { intros cs w'. specialize (A cs w').
    pose proof (filter_length_le
                  (fun e => negb (failed (result_of (snd e))))
                  (endings os cs w')) as L.
    pose proof (f_equal (@List.length _) (endings_labels _ os cs w')) as L'.
    rewrite !length_map in L'. lia. }
  repeat split; [apply A | apply B | apply (B system_commands)
                 | apply (B network_commands)].
Qed.

(** X8.  Collecting a command set in two parts, the second from the state
    the first left, gives the same map as collecting it in one go: the
    entries of the first part followed by those of the second. *)
Theorem collect_app {W} (os : subprocess W) (a b : list (str * str))
    (w : W) :
  NoDup (map fst (a ++ b)) ->
  collect os (a ++ b) w =
  (fst (collect os a w) ++ fst (collect os b (snd (collect os a w))),
   snd (collect os b (snd (collect os a w)))).
Proof.
  intros N. rewrite map_app in N.
  pose proof (NoDup_app_remove_r _ _ N) as Na.
  pose proof (NoDup_app_remove_l _ _ N) as Nb.
  unfold collect at 1. rewrite for_each_app. fold (collect os a).
  rewrite collect_loop.
  rewrite (collect_stored _ os b _ Nb); cbn [fst snd].
  f_equal. fold (endings os b (snd (collect os a w))).
  apply fold_store.
  - rewrite endings_labels; exact Nb.
  - intros k H. rewrite endings_labels.
    rewrite (collect_stored _ os a w Na) in H; cbn [fst] in H.
    apply keys_stored_incl in H. rewrite endings_labels in H.
    intros H'. revert N H H'. clear.
    induction (map fst a) as [|x l IH]; simpl; intros N H H'; [tauto|].
    inversion N as [|? ? Hx N']; subst. destruct H as [<-|H].
    + apply Hx. apply in_or_app; right; exact H'.
    + exact (IH N' H H').
Qed.

Lemma collect_app_witness :
  NoDup (map fst (system_commands ++ network_commands)) /\
  fst (collect (Fake.os Fake.mixed) (system_commands ++ network_commands)
         Fake.boot) =
  fst (collect (Fake.os Fake.mixed) system_commands Fake.boot)
  ++ fst (collect (Fake.os Fake.mixed) network_commands
            (snd (collect (Fake.os Fake.mixed) system_commands Fake.boot))).
Proof.
  assert (NoDup (map fst (system_commands ++ network_commands))) as N
    by (repeat constructor; cbv; intuition discriminate).
  split; [exact N|].
  rewrite (collect_app (Fake.os Fake.mixed) system_commands
             network_commands Fake.boot N).
  reflexivity.
Defined.

(** ** The whole run *)

Lemma collect_logged_from {W} (os : subprocess W) commands w log :
  collect (logged os) commands (w, log) =
  (fst (collect os commands w),
   (snd (collect os commands w), log ++ map snd commands)).
Proof.
  unfold collect. rewrite !collect_loop, attempts_logged; reflexivity.
Qed.

Lemma scan_network_logged_from {W} (os : subprocess W) subnet w log :
  scan_network (logged os) subnet (w, log) =
  (fst (scan_network os subnet w),
   (snd (scan_network os subnet w), log ++ sweep_commands subnet)).
Proof.
  rewrite !scan_answering. unfold probes.
  rewrite attempts_logged; reflexivity.
Qed.

Lemma run_scan_eq {W} (os : subprocess W) subnet t w :
  run_scan os subnet t w =
  sweep_phase os subnet
    (set_network_info
       (fst (get_network_info os (snd (get_system_info os w))))
       (set_system_info (fst (get_system_info os w)) t))
    (snd (get_network_info os (snd (get_system_info os w)))).
Proof.
  unfold run_scan, bind. rewrite system_phase_eq, network_phase_eq.
  reflexivity.
Qed.

(** X9.  A run hands the operating system the five system commands, then
    the five network commands, then, only when a non-empty subnet is given,
    the 254 pings in ascending order: 10 launches without a subnet and 264
    with one, whatever fails on the way.  Recording them changes neither
    the tool nor the state the run leaves. *)
Theorem run_scan_commands {W} (os : subprocess W) (subnet : option str)
    (t : tool) (w : W) :
  let logged_run := run_scan (logged os) subnet t (w, []) in
  fst logged_run = fst (run_scan os subnet t w) /\
  fst (snd logged_run) = snd (run_scan os subnet t w) /\
  snd (snd logged_run) =
    map snd system_commands ++ map snd network_commands
    ++ match subnet with
       | Some (c :: s) => sweep_commands (c :: s)
       | _ => []
       end /\
  List.length (snd (snd logged_run)) =
    match subnet with Some (_ :: _) => 264 | _ => 10 end.
Proof.
  cbv zeta. rewrite !run_scan_eq, !sweep_phase_eq.
  unfold get_system_info, get_network_info.
  rewrite !collect_logged_from; cbn [fst snd].
  rewrite !collect_logged_from; cbn [fst snd].
  destruct subnet as [[|c s]|]; cbn [fst snd app].
  - rewrite app_nil_r. repeat split; reflexivity.
  - rewrite !scan_network_logged_from; cbn [fst snd].
    repeat split; reflexivity.
  - rewrite app_nil_r. repeat split; reflexivity.
Qed.

(** ** The results table *)

Lemma split_first (sep : char) (s : str) :
  exists x xs,
    split sep s = x :: xs /\ ~ In sep x /\
    ((s = x /\ xs = []) \/ exists rest, s = x ++ sep :: rest).
Proof.
  induction s as [|c s [x [xs [E [Hx H]]]]]; cbn [split].
  - exists [], []. repeat split; auto.
  - destruct (N.eqb_spec c sep) as [->|Hc].
    + exists [], (split sep s). repeat split; auto.
      right; exists s; reflexivity.
    + rewrite E. exists (c :: x), xs. repeat split.
      * intros [H'|H']; [congruence | contradiction].
      * destruct H as [[-> ->]|[rest ->]]; [left; auto|].
        right; exists rest; reflexivity.
Qed.

Lemma join_split (sep : char) (s : str) : join [sep] (split sep s) = s.
Proof.
  induction s as [|c s IH]; [reflexivity|]. cbn [split].
  destruct (N.eqb_spec c sep) as [->|Hc].
  - destruct (split_first sep s) as [x [xs [E _]]].
    rewrite E in *. cbn [join app] in *. rewrite IH; reflexivity.
  - destruct (split_first sep s) as [x [xs [E _]]].
    rewrite E in *. destruct xs; cbn [join app] in *;
      rewrite <- IH; reflexivity.
Qed.

Lemma summary_split (value : str) :
  exists details,
    summary value = Some details /\
    (value = [] -> details = py "N/A") /\
    (value <> [] ->
     ~ In 10%N details /\
     (details = value \/ exists rest, value = details ++ 10%N :: rest)) /\
    join [10%N] (split 10%N value) = value.
Proof.
  destruct value as [|c v].
  - exists (py "N/A"). repeat split; auto; congruence.
  - destruct (split_first 10%N (c :: v)) as [x [xs [E [Hx H]]]].
    exists x. unfold summary. rewrite E. repeat split.
    + discriminate.
    + exact Hx.
    + destruct H as [[-> _]|H]; auto.
    + rewrite <- E. apply join_split.
Qed.


Lemma add_rows_spec (info : dict) (table : list (str * str)) :
  exists rows,
    add_rows info table = Some (table ++ rows) /\
    Forall2 (fun item row =>
               fst row = fst item /\ summary (snd item) = Some (snd row))
            info rows.
Proof.
  revert table; induction info as [|[k v] info IH]; intros table;
    cbn [add_rows].
  - exists []. rewrite app_nil_r. split; [reflexivity | constructor].
  - destruct (summary_split v) as [d [E _]]. rewrite E.
    destruct (IH (table ++ [(k, d)])) as [rows [E' F]].
    exists ((k, d) :: rows). rewrite E', <- app_assoc. split; [reflexivity|].
    constructor; auto.
Qed.

Lemma Forall2_keys (info : dict) (rows : list (str * str)) :
  Forall2 (fun item row =>
             fst row = fst item /\ summary (snd item) = Some (snd row))
          info rows ->
  map fst rows = keys info.
Proof.
  induction 1 as [|item row info rows [E _] _ IH]; simpl; [reflexivity|].
  rewrite E, IH; reflexivity.
Qed.

Lemma table_spec (r : Report) :
  exists rows1 rows2,
    create_results_table r =
      Some (rows1 ++ rows2
            ++ match active_hosts r with
               | [] => []
               | _ :: _ =>
                   [(py "Active Hosts", join (py ", ") (active_hosts r))]
               end) /\
    Forall2 (fun item row =>
               fst row = fst item /\ summary (snd item) = Some (snd row))
            (system_info r) rows1 /\
    Forall2 (fun item row =>
               fst row = fst item /\ summary (snd item) = Some (snd row))
            (network_info r) rows2.
Proof.
  unfold create_results_table.
  destruct (add_rows_spec (system_info r) []) as [rows1 [E1 F1]].
  rewrite E1; cbn [app].
  destruct (add_rows_spec (network_info r) rows1) as [rows2 [E2 F2]].
  rewrite E2. exists rows1, rows2. split; [|split; assumption].
  destruct (active_hosts r); [rewrite app_nil_r|rewrite <- app_assoc];
    reflexivity.
Qed.

(** X11.  Building the table never fails, whatever the report holds.  Its
    categories are the keys of the system map, then those of the network
    map, in their order, then "Active Hosts" only when the host list is not
    empty; so it has one row for each entry of the two maps and at most
    one more. *)
Theorem create_results_table_rows (r : Report) :
  exists rows,
    create_results_table r = Some rows /\
    map fst rows =
      keys (system_info r) ++ keys (network_info r)
      ++ match active_hosts r with
         | [] => []
         | _ :: _ => [py "Active Hosts"]
         end /\
    List.length rows =
      List.length (system_info r) + List.length (network_info r)
      + match active_hosts r with [] => 0 | _ :: _ => 1 end.
Proof.
  destruct (table_spec r) as [rows1 [rows2 [E [F1 F2]]]].
  eexists. split; [exact E|].
  pose proof (Forall2_keys _ _ F1) as K1.
  pose proof (Forall2_keys _ _ F2) as K2.
  split.
  - rewrite !map_app, K1, K2. destruct (active_hosts r); reflexivity.
  - rewrite !length_app.
    apply (f_equal (@List.length _)) in K1, K2.
    unfold keys in K1, K2. rewrite !length_map in K1, K2.
    rewrite K1, K2. destruct (active_hosts r); simpl; lia.
Qed.

Lemma stored_values_trimmed (ends : list (str * outcome)) key value :
  In (key, value) (stored ends) -> strip value = value.
Proof.
  unfold stored. rewrite in_map_iff. intros [[k o] [E _]].
  inversion E; subst. apply result_trimmed.
Qed.

Lemma collect_values_trimmed {W} (os : subprocess W) commands w key value :
  NoDup (map fst commands) ->
  In (key, value) (fst (collect os commands w)) -> strip value = value.
Proof.
  intros N. rewrite (collect_stored _ os commands w N); cbn [fst].
  apply stored_values_trimmed.
Qed.

Lemma trimmed_summary (value details : str) :
  strip value = value -> summary value = Some details -> details <> [].
Proof.
  intros T E. destruct (strip_spec value) as [_ [Hh _]]. rewrite T in Hh.
  destruct (summary_split value) as [d [E' [He [Hn _]]]].
  rewrite E in E'; inversion E'; subst d.
  destruct value as [|c v]; [rewrite He by reflexivity; discriminate|].
  destruct Hn as [_ [->|[rest H]]]; [discriminate | discriminate|].
  intros ->. cbn [app] in H.
  specialize (Hh _ _ H). discriminate.
Qed.

Lemma rows_details_nonempty (info : dict) (rows : list (str * str)) :
  (forall key value, In (key, value) info -> strip value = value) ->
  Forall2 (fun item row =>
             fst row = fst item /\ summary (snd item) = Some (snd row))
          info rows ->
  forall category details, In (category, details) rows -> details <> [].
Proof.
  intros T F. induction F as [|[k v] [c d] info rows [_ E] _ IH];
    intros category details H; [destruct H|].
  destruct H as [H|H].
  - inversion H; subst. apply (trimmed_summary v); [|exact E].
    apply (T k); left; reflexivity.
  - apply (IH (fun k' v' H' => T k' v' (or_intror H')) category details H).
Qed.

Lemma host_address_nonempty (subnet : str) (i : nat) :
  host_address subnet i <> [].
Proof.
  unfold host_address. intros H. apply app_eq_nil in H.
  destruct H as [_ H]. discriminate.
Qed.

Lemma join_nonempty (sep x : str) (l : list str) :
  x <> [] -> join sep (x :: l) <> [].
Proof.
  intros Hx H. cbn [join] in H. destruct l; [contradiction|].
  apply app_eq_nil in H. tauto.
Qed.

(** X12.  After a run from a fresh tool no row of the table has empty
    details: an empty value shows as "N/A", a non-empty value is trimmed
    and so its first line is not empty, and the hosts row, present only
    when some host answered, joins addresses that are never empty. *)
Theorem table_details_never_empty {W} (os : subprocess W) (now : str)
    (subnet : option str) (w : W) :
  let r := results (fst (run_scan os subnet (init now) w)) in
  exists rows,
    create_results_table r = Some rows /\
    forall category details, In (category, details) rows -> details <> [].
Proof.
  cbv zeta. rewrite run_scan_eq, sweep_phase_eq.
  set (sys := fst (get_system_info os w)).
  set (w1 := snd (get_system_info os w)).
  set (net := fst (get_network_info os w1)).
  set (w2 := snd (get_network_info os w1)).
  assert (forall key value, In (key, value) sys -> strip value = value)
    as Ts by (intros key value;
              apply collect_values_trimmed, system_labels_distinct).
  assert (forall key value, In (key, value) net -> strip value = value)
    as Tn by (intros key value;
              apply collect_values_trimmed, network_labels_distinct).
  assert (forall hosts,
             (forall ip, In ip hosts -> ip <> []) ->
             let r := {| timestamp := now; system_info := sys;
                         network_info := net; active_hosts := hosts |} in
             exists rows,
               create_results_table r = Some rows /\
               forall category details,
                 In (category, details) rows -> details <> []) as A.
  { intros hosts Hh r.
    destruct (table_spec r) as [rows1 [rows2 [E [F1 F2]]]].
    eexists; split; [exact E|].
    intros category details H.
    apply in_app_or in H. destruct H as [H|H];
      [exact (rows_details_nonempty _ _ Ts F1 _ _ H)|].
    apply in_app_or in H. destruct H as [H|H];
      [exact (rows_details_nonempty _ _ Tn F2 _ _ H)|].
    cbn [active_hosts r] in H. destruct hosts as [|x l]; [destruct H|].
    destruct H as [H|[]]. injection H as _ <-.
    exact (join_nonempty (py ", ") x l (Hh x (or_introl eq_refl))). }
  destruct subnet as [[|c s]|]; cbn [fst results].
  - apply (A []). intros ip [].
  - apply (A (fst (scan_network os (c :: s) w2))).
    intros ip H. rewrite scan_answering in H; cbn [fst] in H.
    apply in_map_iff in H. destruct H as [h [<- _]].
    apply host_address_nonempty.
  - apply (A []). intros ip [].
Qed.

(** X13.  A run without a subnet does not touch the host list: on a tool
    that has swept before, the hosts of the earlier sweep stay in the
    report, and the table built after the second run still ends with their
    row. *)
Theorem run_scan_without_subnet_keeps_hosts {W} (os : subprocess W)
    (t : tool) (w : W) :
  active_hosts (results t) <> [] ->
  let t' := fst (run_scan os None t w) in
  active_hosts (results t') = active_hosts (results t) /\
  writes t' = writes t ++ [SystemInfo; NetworkInfo] /\
  exists rows,
    create_results_table (results t') =
    Some (rows ++ [(py "Active Hosts",
                    join (py ", ") (active_hosts (results t)))]).
Proof.
  intros H. cbv zeta. rewrite run_scan_eq, sweep_phase_eq; cbn [fst].
  split; [reflexivity|]. split.
  - cbn. rewrite <- app_assoc; reflexivity.
  - match goal with |- context [create_results_table ?r] =>
      set (r' := r);
      assert (active_hosts r' = active_hosts (results t)) as A
        by reflexivity;
      destruct (table_spec r') as [rows1 [rows2 [E _]]] end.
    rewrite A in E. exists (rows1 ++ rows2). rewrite E.
    destruct (active_hosts (results t)); [contradiction|].
    rewrite <- app_assoc; reflexivity.
Qed.

Lemma run_scan_without_subnet_keeps_hosts_witness :
  let t := fst (run_scan (Fake.os Fake.two_hosts) (Some (py "10.0.0"))
                  (init (py "2024-01-01T00:00:00")) Fake.boot) in
  active_hosts (results t) <> [] /\
  active_hosts (results (fst (run_scan (Fake.os Fake.all_echo) None t
                                Fake.boot))) =
  [py "10.0.0.5"; py "10.0.0.200"].
Proof.
  cbv zeta.
  assert (active_hosts
            (results (fst (run_scan (Fake.os Fake.two_hosts)
                             (Some (py "10.0.0"))
                             (init (py "2024-01-01T00:00:00")) Fake.boot)))
          <> []) as H by (vm_compute; discriminate).
  split; [exact H|].
  rewrite (proj1 (run_scan_without_subnet_keeps_hosts
                    (Fake.os Fake.all_echo) _ Fake.boot H)).
  vm_compute; reflexivity.
Defined.

(** ** Blank output *)

Lemma lstrip_blank (s : str) : forallb isspace s = true -> lstrip s = [].
Proof.
  induction s as [|c s IH]; simpl; [reflexivity|].
  destruct (isspace c); simpl; [exact IH | discriminate].
Qed.

Lemma strip_empty_iff (s : str) : strip s = [] <-> forallb isspace s = true.
Proof.
  split.
  - intros E. destruct (strip_spec s) as [[pre [suf [H [A B]]]] _].
    rewrite E in H; cbn [app] in H. rewrite H, forallb_app, A, B; reflexivity.
  - intros A. unfold strip. rewrite (lstrip_blank s A); reflexivity.
Qed.

Lemma rows_show_na (d : dict) (rows : list (str * str)) (key : str) :
  Forall2 (fun item row =>
             fst row = fst item /\ summary (snd item) = Some (snd row))
          d rows ->
  In (key, []) d -> In (key, py "N/A") rows.
Proof.
  induction 1 as [|item row d rows [Ek Es] _ IH]; intros I; [destruct I|].
  destruct I as [->|I]; [|right; exact (IH I)].
  left. destruct row as [c s]; cbn in Ek, Es.
  inversion Es; subst; reflexivity.
Qed.

(** X14.  The return code plays no part: a command that exits with
    nothing on standard error is stored even when it exits non-zero, and
    its value is the empty string exactly when its standard output was
    empty or all whitespace; the table then shows that category with
    "N/A". *)
Theorem blank_output_shows_na {W} (os : subprocess W)
    (commands : list (str * str)) (w : W) (key stdout : str)
    (returncode : Z) :
  NoDup (map fst commands) ->
  In (key, Completed stdout [] returncode) (endings os commands w) ->
  let info := fst (collect os commands w) in
  dict_get info key = Some (strip stdout) /\
  (dict_get info key = Some [] <-> forallb isspace stdout = true) /\
  (forallb isspace stdout = true ->
   exists rows, add_rows info [] = Some rows /\ In (key, py "N/A") rows).
Proof.
  intros N H info; subst info.
  rewrite (collect_stored _ os commands w N); cbn [fst].
  assert (NoDup (map fst (endings os commands w))) as N'
    by (rewrite endings_labels; exact N).
  assert (In (key, strip stdout) (stored (endings os commands w))) as I
    by (apply (in_stored _ key (Completed stdout [] returncode));
        [exact H | reflexivity]).
  assert (dict_get (stored (endings os commands w)) key
          = Some (strip stdout)) as G
    by (apply dict_get_in; [apply NoDup_keys_stored; exact N' | exact I]).
  split; [exact G|]. split.
  - rewrite G, <- strip_empty_iff. split; [congruence | intros ->; reflexivity].
  - intros B. apply strip_empty_iff in B. rewrite B in I.
    destruct (add_rows_spec (stored (endings os commands w)) [])
      as [rows [E F]].
    exists rows. split; [exact E | exact (rows_show_na _ _ _ F I)].
Qed.

Lemma blank_output_shows_na_witness :
  NoDup (map fst system_commands) /\
  dict_get (fst (collect (Fake.os Fake.mixed) system_commands Fake.boot))
    (py "Running Services") = Some (strip []).
Proof.
  split; [exact system_labels_distinct|].
  assert (In (py "Running Services", Completed [] [] 0)
            (endings (Fake.os Fake.mixed) system_commands Fake.boot)) as H
    by (apply (nth_error_In _ 4); vm_compute; reflexivity).
  exact (proj1 (blank_output_shows_na (Fake.os Fake.mixed) system_commands
                  Fake.boot (py "Running Services") [] 0
                  system_labels_distinct H)).
Defined.

(** ** Calls in strict sequence *)

Lemma attempt_sequential {W} (os : subprocess W) command w log :
  exists calls,
    attempt (traced os) command (w, log) =
    (fst (attempt os command w),
     (snd (attempt os command w), log ++ calls)) /\
    forall rest calls' w3,
      sequential os (snd (attempt os command w)) rest calls' w3 ->
      sequential os w (command :: rest) (calls ++ calls') w3.
Proof.
  unfold attempt, bind, ret; cbn [traced Popen communicate fst snd].
  destruct (Popen os command w) as [[process|e] w1] eqn:P; cbn [fst snd].
  - destruct (communicate os process w1) as [r w2] eqn:C; cbn [fst snd].
    exists [Launched command; Waited process].
    rewrite <- app_assoc. split; [reflexivity|].
    intros rest calls' w3 S.
    eapply sequential_waited; eassumption.
  - exists [Launched command]. split; [reflexivity|].
    intros rest calls' w3 S.
    eapply sequential_raised; eassumption.
Qed.

Lemma attempts_sequential {W} (os : subprocess W) commands :
  forall w log,
  exists calls,
    attempts (traced os) commands (w, log) =
    (fst (attempts os commands w),
     (snd (attempts os commands w), log ++ calls)) /\
    sequential os w commands calls (snd (attempts os commands w)).
Proof.
  induction commands as [|c cs IH]; intros w log; cbn [attempts].
  - exists []. unfold ret; cbn. rewrite app_nil_r.
    split; [reflexivity | constructor].
  - unfold bind.
    destruct (attempt_sequential os c w log) as [calls [E S]]. rewrite E.
    destruct (attempt os c w) as [o w1]; cbn [fst snd] in *.
    destruct (IH w1 (log ++ calls)) as [calls' [E' S']]. rewrite E'.
    destruct (attempts os cs w1) as [outs w3]; cbn [fst snd] in *.
    exists (calls ++ calls'). unfold ret. rewrite <- app_assoc.
    split; [reflexivity | exact (S cs calls' w3 S')].
Qed.

(** X15.  The collectors and the sweep make their calls in strict
    sequence.  For each command, in order, there is one launch; when it
    returns a child the very next call is the wait on that same child, and
    the next command is launched only from the state that wait left; when
    the launch raises there is no wait.  No command is launched twice and
    none is skipped.  Recording the calls does not change what is
    returned.  (A wait that expires leaves its child alive, so children can
    pile up; the sequence is of calls, not of lifetimes.) *)
Theorem calls_in_strict_sequence {W} (os : subprocess W) :
  (forall commands w,
      fst (collect (traced os) commands (w, [])) =
        fst (collect os commands w) /\
      fst (snd (collect (traced os) commands (w, []))) =
        snd (collect os commands w) /\
      sequential os w (map snd commands)
        (snd (snd (collect (traced os) commands (w, []))))
        (snd (collect os commands w))) /\
  (forall subnet w,
      fst (scan_network (traced os) subnet (w, [])) =
        fst (scan_network os subnet w) /\
      fst (snd (scan_network (traced os) subnet (w, []))) =
        snd (scan_network os subnet w) /\
      sequential os w (sweep_commands subnet)
        (snd (snd (scan_network (traced os) subnet (w, []))))
        (snd (scan_network os subnet w))).
Proof.
  split.
  - intros commands w. unfold collect. rewrite !collect_loop; cbn [fst snd].
    destruct (attempts_sequential os (map snd commands) w [])
      as [calls [E S]].
    rewrite E; cbn [fst snd app]. repeat split; auto.
  - intros subnet w. rewrite !scan_answering; cbn [fst snd]. unfold probes.
    destruct (attempts_sequential os (sweep_commands subnet) w [])
      as [calls [E S]].
    rewrite E; cbn [fst snd app]. repeat split; auto.
Qed.
